(** * toml_lib.TomlConfig: a shallow embedding of [src/toml_lib/toml.py]

    [TomlConfig] stores every table of a configuration document as a Python
    object whose instance dictionary ([__dict__]) holds the table's entries;
    nested tables are nested [TomlConfig] objects, and the file a document was
    loaded from is kept in the ordinary instance attribute [__file__].

    The embedding keeps the objects in a store (a list of instance
    dictionaries addressed by location), because the methods mutate the
    objects in place and [get] hands out a live instance dictionary.  Each
    method is a function in a state-and-exception monad over that store.

    What is modelled and what is not:
    - the values are plain Python data ([None], [bool], [int], [float],
      [str], [list], [dict]) and [TomlConfig] objects; lists and plain
      dictionaries are immutable values, only [TomlConfig] objects live in
      the store;
    - [hasattr], [getattr], [setattr], [delattr] follow the interpreter's
      lookup on a [TomlConfig] instance (data descriptors of the type, the
      instance dictionary, the other names of the class) and on the built-in
      data types (their attribute names are fixed tables; assignment and
      deletion raise [AttributeError]); a run that goes on inside a bound
      method, a type object or a descriptor ends in [OutsideModel];
    - nested constructor calls and nested [to_dict] calls are bounded by a
      recursion limit, beyond which they raise [RecursionError];
    - the file system is a finite map from paths to text in which every path
      but the empty one can be opened for writing; the TOML and JSON
      libraries are parameters. *)

From Stdlib Require Import ZArith String Ascii List Bool Lia.
From stdpp Require Import base list strings gmap.
Import ListNotations.

Open Scope string_scope.
Open Scope list_scope.

(** ** Python values *)

Definition loc := nat.

(** The values the methods can meet.  [VNode l] is the [TomlConfig] instance
    at location [l]; [VAttrs l] is the instance dictionary of that object (the
    very dictionary, not a copy); [VAttrOf x name] is an attribute that the
    interpreter supplies for [x] from its type rather than from an instance
    dictionary: a bound method, a type object and the like. *)
#[warnings="-register-all"]
Inductive value : Type :=
| VNone
| VBool (b : bool)
| VInt (n : Z)
| VFloat (bits : Z)
| VStr (s : string)
| VList (xs : list value)
| VDict (items : list (string * value))
| VNode (l : loc)
| VAttrs (l : loc)
| VAttrOf (owner : value) (name : string).

(** A dictionary with string keys, in insertion order. *)
Abbreviation dict := (list (string * value)).

Module Dict.

Fixpoint get (k : string) (d : dict) : option value :=
  match d with
  | [] => None
  | (k', v) :: rest => if String.eqb k k' then Some v else get k rest
  end.

(** [d[k] = v]: rebinds in place when [k] is bound, appends otherwise. *)
Fixpoint set (k : string) (v : value) (d : dict) : dict :=
  match d with
  | [] => [(k, v)]
  | (k', v') :: rest =>
      if String.eqb k k' then (k', v) :: rest else (k', v') :: set k v rest
  end.

(** [del d[k]] *)
Fixpoint del (k : string) (d : dict) : dict :=
  match d with
  | [] => []
  | (k', v') :: rest =>
      if String.eqb k k' then rest else (k', v') :: del k rest
  end.

Definition has (k : string) (d : dict) : bool :=
  match get k d with Some _ => true | None => false end.

Definition keys (d : dict) : list string := map fst d.

End Dict.

(** Membership of a name in a table of names. *)
Fixpoint mem (k : string) (names : list string) : bool :=
  match names with
  | [] => false
  | n :: rest => String.eqb k n || mem k rest
  end.

(** ** Exceptions and the store monad *)

Inductive exn : Type :=
| KeyError (msg : string)
| AttributeError
| TypeError
| ValueError (msg : string)
| RecursionError
| FileNotFoundError
| CodecError (msg : string)
    (* raised by the TOML or JSON library *)
| OutsideModel.
    (* the run goes on inside interpreter objects (bound methods, type
       objects, attribute descriptors) that this development does not follow *)

Inductive outcome (A : Type) : Type :=
| Ok (a : A)
| Raise (e : exn).
Arguments Ok {A} a.
Arguments Raise {A} e.

(** The store: the instance dictionary of every allocated [TomlConfig]. *)
Abbreviation heap := (list dict).

Definition M (A : Type) : Type := heap -> outcome A * heap.

Definition ret {A} (a : A) : M A := fun h => (Ok a, h).
Definition raise {A} (e : exn) : M A := fun h => (Raise e, h).
Definition bind {A B} (c : M A) (k : A -> M B) : M B :=
  fun h => match c h with
           | (Ok a, h') => k a h'
           | (Raise e, h') => (Raise e, h')
           end.

Notation "'let*' x ':=' c 'in' k" := (bind c (fun x => k))
  (at level 10, x name, c at level 100, k at level 200, only parsing).
Notation "c ';;;' k" := (bind c (fun _ => k))
  (at level 100, k at level 200, right associativity, only parsing).

Definition attrs_of (h : heap) (l : loc) : dict :=
  match h !! l with Some d => d | None => [] end.

Definition read_attrs (l : loc) : M dict := fun h => (Ok (attrs_of h l), h).
Definition write_attrs (l : loc) (d : dict) : M unit :=
  fun h => (Ok tt, <[l := d]> h).

(** A new object with an empty instance dictionary. *)
Definition alloc : M loc := fun h => (Ok (length h), h ++ [[]]).

(** ** The attribute protocol

    [hasattr], [getattr], [setattr] and [delattr] are the only way the
    methods touch an object.  On a [TomlConfig] instance the interpreter
    looks an attribute up in three places, in this order: the data
    descriptors of the type, the instance dictionary, the remaining names of
    the class. *)

(** The names the class body of [TomlConfig] defines. *)
Definition TomlConfig_defs : list string :=
  [ "__init__"; "load"; "add_item"; "remove_item"; "update_item"; "to_dict";
    "save_to_file"; "add_items"; "save"; "get"; "to_json"; "from_json" ].

(** The names every object inherits from [object] (CPython 3.12). *)
Definition object_names : list string :=
  [ "__class__"; "__delattr__"; "__dir__"; "__doc__"; "__eq__"; "__format__";
    "__ge__"; "__getattribute__"; "__getstate__"; "__gt__"; "__hash__";
    "__init__"; "__init_subclass__"; "__le__"; "__lt__"; "__ne__"; "__new__";
    "__reduce__"; "__reduce_ex__"; "__repr__"; "__setattr__"; "__sizeof__";
    "__str__"; "__subclasshook__" ].

(** Attributes of an instance that are served by a data descriptor of its
    type and never stored in the instance dictionary. *)
Definition data_descriptors : list string :=
  [ "__dict__"; "__class__"; "__weakref__" ].

(** Every name [hasattr] finds on a [TomlConfig] instance whose instance
    dictionary is empty. *)
Definition class_names : list string :=
  TomlConfig_defs ++ [ "__module__"; "__dict__"; "__weakref__" ] ++ object_names.

(** The attribute names of the built-in data types (CPython 3.12), beyond
    those of [object]. *)
Definition int_names : list string :=
  [ "__abs__"; "__add__"; "__and__"; "__bool__"; "__ceil__"; "__divmod__";
    "__float__"; "__floor__"; "__floordiv__"; "__getnewargs__"; "__index__";
    "__int__"; "__invert__"; "__lshift__"; "__mod__"; "__mul__"; "__neg__";
    "__or__"; "__pos__"; "__pow__"; "__radd__"; "__rand__"; "__rdivmod__";
    "__rfloordiv__"; "__rlshift__"; "__rmod__"; "__rmul__"; "__ror__";
    "__round__"; "__rpow__"; "__rrshift__"; "__rshift__"; "__rsub__";
    "__rtruediv__"; "__rxor__"; "__sub__"; "__truediv__"; "__trunc__";
    "__xor__"; "as_integer_ratio"; "bit_count"; "bit_length"; "conjugate";
    "denominator"; "from_bytes"; "imag"; "is_integer"; "numerator"; "real";
    "to_bytes" ].

Definition float_names : list string :=
  [ "__abs__"; "__add__"; "__bool__"; "__ceil__"; "__divmod__"; "__float__";
    "__floor__"; "__floordiv__"; "__getformat__"; "__getnewargs__"; "__int__";
    "__mod__"; "__mul__"; "__neg__"; "__pos__"; "__pow__"; "__radd__";
    "__rdivmod__"; "__rfloordiv__"; "__rmod__"; "__rmul__"; "__round__";
    "__rpow__"; "__rsub__"; "__rtruediv__"; "__sub__"; "__truediv__";
    "__trunc__"; "as_integer_ratio"; "conjugate"; "fromhex"; "hex"; "imag";
    "is_integer"; "real" ].

Definition str_names : list string :=
  [ "__add__"; "__contains__"; "__getitem__"; "__getnewargs__"; "__iter__";
    "__len__"; "__mod__"; "__mul__"; "__rmod__"; "__rmul__"; "capitalize";
    "casefold"; "center"; "count"; "encode"; "endswith"; "expandtabs"; "find";
    "format"; "format_map"; "index"; "isalnum"; "isalpha"; "isascii";
    "isdecimal"; "isdigit"; "isidentifier"; "islower"; "isnumeric";
    "isprintable"; "isspace"; "istitle"; "isupper"; "join"; "ljust"; "lower";
    "lstrip"; "maketrans"; "partition"; "removeprefix"; "removesuffix";
    "replace"; "rfind"; "rindex"; "rjust"; "rpartition"; "rsplit"; "rstrip";
    "split"; "splitlines"; "startswith"; "strip"; "swapcase"; "title";
    "translate"; "upper"; "zfill" ].

Definition list_names : list string :=
  [ "__add__"; "__class_getitem__"; "__contains__"; "__delitem__";
    "__getitem__"; "__iadd__"; "__imul__"; "__iter__"; "__len__"; "__mul__";
    "__reversed__"; "__rmul__"; "__setitem__"; "append"; "clear"; "copy";
    "count"; "extend"; "index"; "insert"; "pop"; "remove"; "reverse"; "sort" ].

Definition dict_names : list string :=
  [ "__class_getitem__"; "__contains__"; "__delitem__"; "__getitem__";
    "__ior__"; "__iter__"; "__len__"; "__or__"; "__reversed__"; "__ror__";
    "__setitem__"; "clear"; "copy"; "fromkeys"; "get"; "items"; "keys"; "pop";
    "popitem"; "setdefault"; "update"; "values" ].

(** The attribute names of a value that is not a [TomlConfig]; [None] for
    the interpreter objects whose attributes are not followed. *)
Definition builtin_names (x : value) : option (list string) :=
  match x with
  | VNone => Some ("__bool__" :: object_names)
  | VBool _ | VInt _ => Some (int_names ++ object_names)
  | VFloat _ => Some (float_names ++ object_names)
  | VStr _ => Some (str_names ++ object_names)
  | VList _ => Some (list_names ++ object_names)
  | VDict _ | VAttrs _ => Some (dict_names ++ object_names)
  | VNode _ | VAttrOf _ _ => None
  end.

Definition hasattr (x : value) (k : string) : M bool :=
  match x with
  | VNode l =>
      let* d := read_attrs l in
      ret (mem k data_descriptors || Dict.has k d || mem k class_names)
  | _ =>
      match builtin_names x with
      | Some names => ret (mem k names)
      | None => raise OutsideModel
      end
  end.

Definition getattr (x : value) (k : string) : M value :=
  match x with
  | VNode l =>
      if String.eqb k "__dict__" then ret (VAttrs l)
      else if mem k data_descriptors then ret (VAttrOf x k)
      else
        let* d := read_attrs l in
        match Dict.get k d with
        | Some v => ret v
        | None => if mem k class_names then ret (VAttrOf x k)
                  else raise AttributeError
        end
  | _ =>
      match builtin_names x with
      | Some names => if mem k names then ret (VAttrOf x k)
                      else raise AttributeError
      | None => raise OutsideModel
      end
  end.

(** The built-in data types have no instance dictionary and only read-only
    attributes: assignment and deletion raise [AttributeError]. *)
Definition setattr (x : value) (k : string) (v : value) : M unit :=
  match x with
  | VNode l =>
      if mem k data_descriptors then raise OutsideModel
      else
        let* d := read_attrs l in
        write_attrs l (Dict.set k v d)
  | _ =>
      match builtin_names x with
      | Some _ => raise AttributeError
      | None => raise OutsideModel
      end
  end.

Definition delattr (x : value) (k : string) : M unit :=
  match x with
  | VNode l =>
      if mem k data_descriptors then raise OutsideModel
      else
        let* d := read_attrs l in
        if Dict.has k d then write_attrs l (Dict.del k d)
        else raise AttributeError
  | _ =>
      match builtin_names x with
      | Some _ => raise AttributeError
      | None => raise OutsideModel
      end
  end.

Definition isinstance_dict (x : value) : bool :=
  match x with VDict _ | VAttrs _ => true | _ => false end.

Definition isinstance_TomlConfig (x : value) : bool :=
  match x with VNode _ => true | _ => false end.

(** [data.items()] *)
Definition items (data : value) : M dict :=
  match data with
  | VDict d => ret d
  | VAttrs l => read_attrs l
  | VNode _ | VAttrOf _ _ => raise OutsideModel
  | _ => raise AttributeError
  end.

(** Calling [x.name(...)] inside a method body: the attribute is looked up
    like any other, so an entry of the instance dictionary with the same name
    hides the method.  The result is the receiver the method is bound to. *)
Definition bound_method (x : value) (name : string) : M loc :=
  let* f := getattr x name in
  match f with
  | VAttrOf (VNode l) n =>
      if String.eqb n name && mem n TomlConfig_defs then ret l
      else raise OutsideModel
  | VAttrOf _ _ => raise OutsideModel
  | _ => raise TypeError
  end.

(** ** The methods of [TomlConfig] *)

(** [str.split('.')] *)
Fixpoint split_dot (s : string) : list string :=
  match s with
  | EmptyString => [""]
  | String c rest =>
      if Ascii.eqb c "." then "" :: split_dot rest
      else match split_dot rest with
           | [] => [String c ""]
           | w :: ws => String c w :: ws
           end
  end.

(** [KeyError(f"Key '{key}' does not exist.")] *)
Definition key_error (key : string) : exn :=
  KeyError ("Key '" ++ key ++ "' does not exist.").

Definition truthy (filename : option string) : bool :=
  match filename with
  | Some s => negb (String.eqb s "")
  | None => false
  end.

Definition is_None (x : value) : bool :=
  match x with VNone => true | _ => false end.

(** The loop of [__init__]; [new] is the constructor call [TomlConfig(value)]. *)
Fixpoint init_items (new : value -> M loc) (self : loc) (data : dict)
  : M unit :=
  match data with
  | [] => ret tt
  | (key, value) :: rest =>
      (if isinstance_dict value then
         let* child := new value in
         setattr (VNode self) key (VNode child)
       else
         setattr (VNode self) key value) ;;;
      init_items new self rest
  end.

(** [TomlConfig(data, filename)]: a new object, then [__init__].  [limit]
    bounds the depth of nested constructor calls, as the interpreter's
    recursion limit does. *)
Fixpoint TomlConfig (limit : nat) (data : value) (filename : option string)
  : M loc :=
  match limit with
  | 0 => raise RecursionError
  | S limit' =>
      let* self := alloc in
      let* kvs := items data in
      init_items (fun value => TomlConfig limit' value None) self kvs ;;;
      (match filename with
       | Some f => if truthy filename
                   then setattr (VNode self) "__file__" (VStr f) else ret tt
       | None => ret tt
       end) ;;;
      ret self
  end.

Fixpoint add_item_loop (current_level : value) (keys : list string)
    (value : value) : M unit :=
  match keys with
  | [] => ret tt
  | k :: rest =>
      let last := match rest with [] => true | _ => false end in
      let* present := hasattr current_level k in
      (if negb present then
         if last then setattr current_level k value
         else
           let* t := TomlConfig 1 (VDict []) None in
           setattr current_level k (VNode t)
       else
         if last then setattr current_level k value else ret tt) ;;;
      let* next := getattr current_level k in
      add_item_loop next rest value
  end.

Definition add_item (self : loc) (key : string) (value : value) : M unit :=
  add_item_loop (VNode self) (split_dot key) value.

Fixpoint remove_item_loop (key : string) (current_level : value)
    (keys : list string) : M unit :=
  match keys with
  | [] => ret tt
  | k :: rest =>
      let* present := hasattr current_level k in
      if negb present then raise (key_error key)
      else
        match rest with
        | [] => delattr current_level k
        | _ :: _ =>
            let* next := getattr current_level k in
            remove_item_loop key next rest
        end
  end.

Definition remove_item (self : loc) (key : string) : M unit :=
  remove_item_loop key (VNode self) (split_dot key).

Definition update_item (self : loc) (key : string) (value : value) : M unit :=
  let* present := hasattr (VNode self) key in
  if present then setattr (VNode self) key value
  else raise (key_error key).

(** The loop of [to_dict]; [rec] is the method body run on a sub-node. *)
Fixpoint to_dict_items (rec : loc -> M dict) (kvs : dict) (data : dict)
  : M dict :=
  match kvs with
  | [] => ret data
  | (key, value) :: rest =>
      if String.eqb key "__file__" || is_None value then
        to_dict_items rec rest data
      else if isinstance_TomlConfig value then
        let* receiver := bound_method value "to_dict" in
        let* sub := rec receiver in
        to_dict_items rec rest (Dict.set key (VDict sub) data)
      else
        to_dict_items rec rest (Dict.set key value data)
  end.

Fixpoint to_dict (limit : nat) (self : loc) : M dict :=
  match limit with
  | 0 => raise RecursionError
  | S limit' =>
      let* kvs := read_attrs self in
      to_dict_items (to_dict limit') kvs []
  end.

(** The call [x.to_dict()]. *)
Definition method_to_dict (limit : nat) (x : value) : M dict :=
  let* receiver := bound_method x "to_dict" in
  to_dict limit receiver.

Definition get (self : loc) (key : string) : M value :=
  let* present := hasattr (VNode self) key in
  if present then
    let* attr := getattr (VNode self) key in
    if isinstance_TomlConfig attr then getattr attr "__dict__"
    else ret attr
  else raise (key_error key).

Fixpoint add_items_of (self : loc) (item : dict) : M unit :=
  match item with
  | [] => ret tt
  | (key, value) :: rest =>
      (let* receiver := bound_method (VNode self) "add_item" in
       add_item receiver key value) ;;;
      add_items_of self rest
  end.

Fixpoint add_items (self : loc) (items_ : list value) : M unit :=
  match items_ with
  | [] => ret tt
  | item :: rest =>
      (let* kvs := items item in add_items_of self kvs) ;;;
      add_items self rest
  end.

(** ** Files and codecs

    The file system is a finite map from paths to text.  The TOML and JSON
    libraries are outside the repository: the methods are stated over any
    four functions with the libraries' signatures. *)

Abbreviation files := (gmap string string).

(** [open(filename, mode)] accepts a string path; the empty path names no
    file. *)
Definition open_path (filename : value) : outcome string :=
  match filename with
  | VStr p => if String.eqb p "" then Raise FileNotFoundError else Ok p
  | VBool _ | VInt _ | VAttrOf _ _ => Raise OutsideModel
  | _ => Raise TypeError
  end.

(** [with open(filename, "a"): pass]: the file is created empty when it is
    absent and left alone otherwise. *)
Definition touch (p : string) (fs : files) : files :=
  match fs !! p with
  | Some _ => fs
  | None => <[p := ""]> fs
  end.

(** What a codec call gives back: its result, or the message of the
    library's own error. *)
Inductive codec (A : Type) : Type :=
| Done (a : A)
| Failed (msg : string).
Arguments Done {A} a.
Arguments Failed {A} msg.

(** A codec error reaches the caller as it is. *)
Definition propagate {A} (c : codec A) : outcome A :=
  match c with
  | Done a => Ok a
  | Failed msg => Raise (CodecError msg)
  end.

Section Codecs.

Variable toml_loads : string -> codec value.
Variable toml_dumps : dict -> codec string.
Variable json_load : string -> codec value.
Variable json_dumps : dict -> codec string.

Definition load (limit : nat) (filename : string) (fs : files) (h : heap)
  : outcome loc * heap * files :=
  match open_path (VStr filename) with
  | Raise e => (Raise e, h, fs)
  | Ok p =>
      let fs1 := touch p fs in
      match fs1 !! p with
      | None => (Raise FileNotFoundError, h, fs1)
      | Some text =>
          match propagate (toml_loads text) with
          | Raise e => (Raise e, h, fs1)
          | Ok data =>
              let (r, h') := TomlConfig limit data (Some filename) h in
              (r, h', fs1)
          end
      end
  end.

(** [open(filename, "w")] empties the file before [tomlkit.dumps] runs. *)
Definition save_to_file (limit : nat) (self : loc) (filename : value)
    (fs : files) (h : heap) : outcome unit * heap * files :=
  match method_to_dict limit (VNode self) h with
  | (Raise e, h') => (Raise e, h', fs)
  | (Ok data, h') =>
      match open_path filename with
      | Raise e => (Raise e, h', fs)
      | Ok p =>
          let fs1 := <[p := ""]> fs in
          match propagate (toml_dumps data) with
          | Raise e => (Raise e, h', fs1)
          | Ok text => (Ok tt, h', <[p := text]> fs1)
          end
      end
  end.

Definition save (limit : nat) (self : loc) (fs : files) (h : heap)
  : outcome unit * heap * files :=
  match getattr (VNode self) "__file__" h with
  | (Raise e, h') => (Raise e, h', fs)
  | (Ok origin, h') =>
      if is_None origin then
        (Raise (ValueError
           "Original filename not available. Use save_to_file() instead."),
         h', fs)
      else
        match bound_method (VNode self) "save_to_file" h' with
        | (Raise e, h2) => (Raise e, h2, fs)
        | (Ok receiver, h2) =>
            match getattr (VNode self) "__file__" h2 with
            | (Raise e, h3) => (Raise e, h3, fs)
            | (Ok target, h3) => save_to_file limit receiver target fs h3
            end
        end
  end.

Definition to_json (limit : nat) (self : loc) : M string :=
  let* data := method_to_dict limit (VNode self) in
  fun h => (propagate (json_dumps data), h).

Definition from_json (limit : nat) (json_data : string) (fs : files)
    (h : heap) : outcome loc * heap :=
  match open_path (VStr json_data) with
  | Raise e => (Raise e, h)
  | Ok p =>
      match fs !! p with
      | None => (Raise FileNotFoundError, h)
      | Some text =>
          match propagate (json_load text) with
          | Raise e => (Raise e, h)
          | Ok data => TomlConfig limit data None h
          end
      end
  end.

End Codecs.

(** ** Vocabulary of the statements *)


(** The node reached from [cur] through sub-nodes bound at [keys]. *)
Fixpoint descend (h : heap) (cur : loc) (keys : list string) : option loc :=
  match keys with
  | [] => Some cur
  | k :: rest =>
      match Dict.get k (attrs_of h cur) with
      | Some (VNode c) => descend h c rest
      | _ => None
      end
  end.

Definition not_in (names : list string) (k : string) : bool :=
  negb (mem k names).



Fixpoint nodup_keys (d : dict) : bool :=
  match d with
  | [] => true
  | (k, _) :: rest => not_in (Dict.keys rest) k && nodup_keys rest
  end.

(** Nesting depth of a mapping: the number of constructor calls, one inside
    the other, that building it takes. *)
Fixpoint depth (v : value) : nat :=
  match v with
  | VDict kvs =>
      S ((fix go (kvs : dict) : nat :=
            match kvs with
            | [] => 0
            | (_, x) :: rest => Nat.max (depth x) (go rest)
            end) kvs)
  | _ => 0
  end.

Fixpoint depth_items (kvs : dict) : nat :=
  match kvs with
  | [] => 0
  | (_, x) :: rest => Nat.max (depth x) (depth_items rest)
  end.

(** A value that a table can hold and that survives the trip through a node
    and back: no [None], no object, and for a nested table no key [to_dict]
    (it would hide the method the export calls on the sub-node), no key
    [__file__], no name served by a data descriptor, no key twice. *)
Fixpoint plain (v : value) : bool :=
  match v with
  | VNone | VNode _ | VAttrs _ => false
  | VDict kvs =>
      not_in (Dict.keys kvs) "to_dict" && nodup_keys kvs
      && (fix go (kvs : dict) : bool :=
            match kvs with
            | [] => true
            | (k, x) :: rest =>
                negb (String.eqb k "__file__") && not_in data_descriptors k
                && plain x && go rest
            end) kvs
  | _ => true
  end.

Fixpoint plain_items (kvs : dict) : bool :=
  match kvs with
  | [] => true
  | (k, x) :: rest =>
      negb (String.eqb k "__file__") && not_in data_descriptors k
      && plain x && plain_items rest
  end.

(** A mapping that the constructor turns into a node and [to_dict] turns
    back. *)
Definition plain_mapping (kvs : dict) : bool := plain (VDict kvs).

(** No table of the mapping, at any depth, has the key [__file__]. *)
Fixpoint no_origin_key (v : value) : bool :=
  match v with
  | VDict kvs =>
      (fix go (kvs : dict) : bool :=
         match kvs with
         | [] => true
         | (k, x) :: rest =>
             negb (String.eqb k "__file__") && no_origin_key x && go rest
         end) kvs
  | VAttrs _ => false
  | _ => true
  end.

Fixpoint no_origin_items (kvs : dict) : bool :=
  match kvs with
  | [] => true
  | (k, x) :: rest =>
      negb (String.eqb k "__file__") && no_origin_key x && no_origin_items rest
  end.

(** Two stores hold the same objects at the locations from [lo] up to
    [hi]. *)
Definition agree (lo hi : nat) (h1 h2 : heap) : Prop :=
  forall l, (lo <= l < hi)%nat -> h2 !! l = h1 !! l.

(** The call [x.to_dict()] returns [sub], in [h] and in every store that
    holds the same objects between [lo] and [hi]. *)
Definition exports (lo hi : nat) (h : heap) (x : value) (sub : dict) : Prop :=
  forall limit hx,
    (depth (VDict sub) <= limit)%nat -> agree lo hi h hx ->
    method_to_dict limit x hx = (Ok sub, hx).

(** What the constructor stores for an entry of its mapping: a sub-node that
    exports the nested mapping, or the value itself. *)
Definition entry_mirrors (lo hi : nat) (h : heap)
    (src got : string * value) : Prop :=
  fst got = fst src
  /\ match snd src with
     | VDict sub =>
         exists c, snd got = VNode c /\ exports lo hi h (VNode c) sub
     | x => snd got = x
     end.

(** No object at a location from [lo] on has the attribute [__file__]. *)
Definition no_origin_from (lo : nat) (h : heap) : Prop :=
  forall l, (lo <= l)%nat -> Dict.get "__file__" (attrs_of h l) = None.

(** The exceptions the constructor can raise. *)
Definition constructor_error (e : exn) : bool :=
  match e with
  | RecursionError | AttributeError | OutsideModel => true
  | _ => false
  end.

(** The instance dictionary after the assignments [entries], in order. *)
Definition assign_all (entries : dict) (d : dict) : dict :=
  fold_left (fun acc kv => Dict.set (fst kv) (snd kv) acc) entries d.

(** Data that is not a mapping, such as JSON text whose top level is not an
    object. *)
Definition not_a_mapping (data : value) : bool :=
  match data with
  | VNone | VBool _ | VInt _ | VFloat _ | VStr _ | VList _ => true
  | _ => false
  end.

(** A value that cannot be called: anything but an attribute supplied by
    the interpreter (a bound method and the like). *)
Definition not_callable (x : value) : bool :=
  match x with
  | VAttrOf _ _ => false
  | _ => true
  end.

(** An entry of the instance dictionary that [to_dict] does not skip. *)
Definition exported (kv : string * value) : bool :=
  negb (String.eqb (fst kv) "__file__" || is_None (snd kv)).

(** What [to_dict] puts in the export for an entry it does not skip: under
    the same key, for a sub-node the mapping that the call [to_dict] on it
    returns ([rec] is the method body run on the receiver), for anything else
    the value itself. *)
Definition export_of (rec : loc -> M dict) (h : heap)
    (src got : string * value) : Prop :=
  fst got = fst src
  /\ match snd src with
     | VNode c =>
         exists recv sub,
           bound_method (VNode c) "to_dict" h = (Ok recv, h)
           /\ rec recv h = (Ok sub, h)
           /\ snd got = VDict sub
     | x => snd got = x
     end.

(** The node that [to_dict] reaches from [cur] through the entries [keys]:
    every entry is a sub-node that the export visits (its key is not
    [__file__]) and calls [to_dict] on (the sub-node has no entry of that
    name). *)
Fixpoint export_path (h : heap) (cur : loc) (keys : list string)
  : option loc :=
  match keys with
  | [] => Some cur
  | k :: rest =>
      match Dict.get k (attrs_of h cur) with
      | Some (VNode c) =>
          if negb (String.eqb k "__file__")
             && negb (Dict.has "to_dict" (attrs_of h c))
          then export_path h c rest
          else None
      | _ => None
      end
  end.

(** * Properties *)

(** ** Names and dictionaries *)

Lemma mem_In k names : mem k names = true <-> In k names.
Proof.
  induction names as [|n names IH]; simpl.
  - split; [discriminate | tauto].
  - rewrite orb_true_iff, IH, String.eqb_eq. split; intros [H|H]; auto.
Qed.

Lemma mem_false k names : mem k names = false <-> ~ In k names.
Proof.
  rewrite <- mem_In. destruct (mem k names); split; congruence.
Qed.

Lemma descriptor_is_class_name k :
  mem k class_names = false -> mem k data_descriptors = false.
Proof.
  rewrite !mem_false. intros H Hd. apply H.
  simpl in Hd. simpl. intuition.
Qed.

Lemma descriptor_not_dict k :
  mem k data_descriptors = false -> String.eqb k "__dict__" = false.
Proof.
  simpl. intros H. apply orb_false_iff in H. now destruct H.
Qed.

Arguments mem : simpl never.

Module DictFacts.

Lemma get_set_same k v d : Dict.get k (Dict.set k v d) = Some v.
Proof.
  induction d as [|[k' v'] d IH]; simpl.
  - now rewrite String.eqb_refl.
  - destruct (String.eqb k k') eqn:E; simpl; rewrite E; auto.
Qed.

Lemma get_set_other k k' v d :
  k <> k' -> Dict.get k' (Dict.set k v d) = Dict.get k' d.
Proof.
  intros Hne. induction d as [|[k0 v0] d IH]; simpl.
  - apply String.eqb_neq in Hne. rewrite String.eqb_sym in Hne. now rewrite Hne.
  - destruct (String.eqb k k0) eqn:E; simpl.
    + apply String.eqb_eq in E. subst k0.
      assert (String.eqb k' k = false) as -> by (apply String.eqb_neq; congruence).
      reflexivity.
    + now rewrite IH.
Qed.

Lemma get_None_keys k d : Dict.get k d = None <-> ~ In k (Dict.keys d).
Proof.
  induction d as [|[k' v'] d IH]; simpl.
  - tauto.
  - destruct (String.eqb k k') eqn:E.
    + apply String.eqb_eq in E. subst. split; [discriminate | tauto].
    + apply String.eqb_neq in E. rewrite IH. intuition congruence.
Qed.

Lemma has_true k d : Dict.has k d = true <-> In k (Dict.keys d).
Proof.
  unfold Dict.has. destruct (Dict.get k d) eqn:E.
  - split; auto. intros _.
    destruct (in_dec string_dec k (Dict.keys d)) as [H|H]; auto.
    apply get_None_keys in H. congruence.
  - apply get_None_keys in E. split; [discriminate | tauto].
Qed.

Lemma has_false k d : Dict.has k d = false <-> Dict.get k d = None.
Proof.
  unfold Dict.has. destruct (Dict.get k d); split; congruence.
Qed.

Lemma set_absent k v d : Dict.get k d = None -> Dict.set k v d = d ++ [(k, v)].
Proof.
  induction d as [|[k' v'] d IH]; simpl; auto.
  destruct (String.eqb k k'); [discriminate|]. intros H. now rewrite IH.
Qed.

Lemma keys_set_bound k v d :
  Dict.has k d = true -> Dict.keys (Dict.set k v d) = Dict.keys d.
Proof.
  unfold Dict.has. induction d as [|[k' v'] d IH]; simpl; [discriminate|].
  destruct (String.eqb k k'); simpl; auto.
  intros H. now rewrite IH.
Qed.

Lemma keys_set k v d :
  Dict.keys (Dict.set k v d)
  = if Dict.has k d then Dict.keys d else Dict.keys d ++ [k].
Proof.
  destruct (Dict.has k d) eqn:E.
  - now apply keys_set_bound.
  - apply has_false in E. rewrite set_absent by auto.
    unfold Dict.keys. now rewrite map_app.
Qed.

Lemma NoDup_keys_set k v d :
  NoDup (Dict.keys d) -> NoDup (Dict.keys (Dict.set k v d)).
Proof.
  intros H. rewrite keys_set. destruct (Dict.has k d) eqn:E; auto.
  apply has_false, get_None_keys in E.
  apply NoDup_app. split; [exact H|]. split.
  - intros x Hx Hin. apply list_elem_of_In in Hx, Hin.
    destruct Hin as [<-|[]]. tauto.
  - apply NoDup_singleton.
Qed.

Lemma get_del_same k d :
  NoDup (Dict.keys d) -> Dict.get k (Dict.del k d) = None.
Proof.
  induction d as [|[k' v'] d IH]; simpl; auto.
  intros H. inversion H as [|? ? Hn Hd]; subst.
  destruct (String.eqb k k') eqn:E.
  - apply String.eqb_eq in E. subst. apply get_None_keys.
    now rewrite <- list_elem_of_In.
  - simpl. rewrite E. auto.
Qed.

Lemma get_del_other k k' d :
  k <> k' -> Dict.get k' (Dict.del k d) = Dict.get k' d.
Proof.
  intros Hne. induction d as [|[k0 v0] d IH]; simpl; auto.
  destruct (String.eqb k k0) eqn:E; simpl.
  - apply String.eqb_eq in E. subst k0.
    assert (String.eqb k' k = false) as -> by (apply String.eqb_neq; congruence).
    reflexivity.
  - now rewrite IH.
Qed.

End DictFacts.

(** ** The store *)

Lemma attrs_of_write_same h l d :
  l < length h -> attrs_of (<[l := d]> h) l = d.
Proof.
  intros H. unfold attrs_of. now rewrite list_lookup_insert_eq.
Qed.

Lemma attrs_of_write_other h l l' d :
  l <> l' -> attrs_of (<[l := d]> h) l' = attrs_of h l'.
Proof.
  intros H. unfold attrs_of. now rewrite list_lookup_insert_ne.
Qed.

Lemma attrs_of_dangling h l : length h <= l -> attrs_of h l = [].
Proof.
  intros H. unfold attrs_of. now rewrite lookup_ge_None_2.
Qed.


Lemma attrs_of_new h : attrs_of (h ++ [[]]) (length h) = [].
Proof.
  unfold attrs_of. rewrite lookup_app_r by lia.
  now rewrite Nat.sub_diag.
Qed.

(** ** The attribute protocol on a [TomlConfig] instance *)

Arguments hasattr : simpl never.
Arguments getattr : simpl never.
Arguments setattr : simpl never.
Arguments delattr : simpl never.
Arguments bind : simpl never.

Lemma TomlConfig_unfold limit kvs h :
  TomlConfig (S limit) (VDict kvs) None h
  = match init_items (fun x => TomlConfig limit x None) (length h) kvs
            (h ++ [[]]) with
    | (Ok _, h2) => (Ok (length h), h2)
    | (Raise e, h2) => (Raise e, h2)
    end.
Proof.
  simpl. unfold bind, alloc, items, ret.
  destruct (init_items _ _ _ _) as [[u|e] h2]; reflexivity.
Qed.

Lemma TomlConfig_S limit data filename h :
  TomlConfig (S limit) data filename h
  = (let* self := alloc in
     let* kvs := items data in
     init_items (fun x => TomlConfig limit x None) self kvs ;;;
     (match filename with
      | Some f => if truthy filename
                  then setattr (VNode self) "__file__" (VStr f) else ret tt
      | None => ret tt
      end) ;;;
     ret self) h.
Proof. reflexivity. Qed.

Arguments TomlConfig : simpl never.

Ltac run := unfold bind, ret, raise, read_attrs, write_attrs; simpl.

Lemma hasattr_node l k h :
  hasattr (VNode l) k h
  = (Ok (mem k data_descriptors || Dict.has k (attrs_of h l) || mem k class_names), h).
Proof. reflexivity. Qed.

Lemma hasattr_node_bound l k h :
  Dict.has k (attrs_of h l) = true -> hasattr (VNode l) k h = (Ok true, h).
Proof.
  intros H. rewrite hasattr_node, H. now rewrite orb_true_r.
Qed.

Lemma hasattr_node_absent l k h :
  Dict.get k (attrs_of h l) = None -> mem k class_names = false ->
  hasattr (VNode l) k h = (Ok false, h).
Proof.
  intros H Hc. rewrite hasattr_node.
  apply DictFacts.has_false in H. rewrite H, Hc.
  now rewrite (descriptor_is_class_name _ Hc).
Qed.

Lemma getattr_node_bound l k v h :
  mem k data_descriptors = false -> Dict.get k (attrs_of h l) = Some v ->
  getattr (VNode l) k h = (Ok v, h).
Proof.
  intros Hd H. unfold getattr.
  rewrite (descriptor_not_dict _ Hd), Hd. run. now rewrite H.
Qed.

Lemma getattr_node_absent l k h :
  Dict.get k (attrs_of h l) = None -> mem k class_names = false ->
  getattr (VNode l) k h = (Raise AttributeError, h).
Proof.
  intros H Hc. unfold getattr.
  pose proof (descriptor_is_class_name _ Hc) as Hd.
  rewrite (descriptor_not_dict _ Hd), Hd. run. now rewrite H, Hc.
Qed.

Lemma setattr_node l k v h :
  mem k data_descriptors = false ->
  setattr (VNode l) k v h = (Ok tt, <[l := Dict.set k v (attrs_of h l)]> h).
Proof.
  intros Hd. unfold setattr. now rewrite Hd.
Qed.

Lemma delattr_node_bound l k h :
  mem k data_descriptors = false -> Dict.has k (attrs_of h l) = true ->
  delattr (VNode l) k h = (Ok tt, <[l := Dict.del k (attrs_of h l)]> h).
Proof.
  intros Hd H. unfold delattr. rewrite Hd. run. now rewrite H.
Qed.

(** Reading never changes the store; a failed write does not either. *)

Ltac split_tests :=
  repeat match goal with
    | |- context [if ?b then _ else _] => destruct b
    | |- context [match Dict.get ?k ?d with _ => _ end] =>
        destruct (Dict.get k d)
    end.

Ltac pure_read :=
  unfold builtin_names, bind, ret, raise, read_attrs; split_tests;
  let H := fresh in intros H; inversion H; reflexivity.

Lemma hasattr_pure x k h r h' : hasattr x k h = (r, h') -> h' = h.
Proof. destruct x; unfold hasattr; pure_read. Qed.

Lemma getattr_pure x k h r h' : getattr x k h = (r, h') -> h' = h.
Proof. destruct x; unfold getattr; pure_read. Qed.

Lemma delattr_raise_pure x k h e h' :
  delattr x k h = (Raise e, h') -> h' = h.
Proof. destruct x; unfold delattr, write_attrs; pure_read. Qed.

Lemma setattr_raise_pure x k v h e h' :
  setattr x k v h = (Raise e, h') -> h' = h.
Proof. destruct x; unfold setattr, write_attrs; pure_read. Qed.

(** ** [update_item] *)

Lemma update_item_bound self key v h :
  mem key data_descriptors = false ->
  Dict.has key (attrs_of h self) = true ->
  update_item self key v h
  = (Ok tt, <[self := Dict.set key v (attrs_of h self)]> h).
Proof.
  intros Hd H. unfold update_item, bind.
  rewrite hasattr_node_bound by auto. now apply setattr_node.
Qed.


Lemma update_item_raise_pure self key v h e h' :
  update_item self key v h = (Raise e, h') -> h' = h.
Proof.
  unfold update_item, bind. rewrite hasattr_node.
  destruct (_ || _ || _).
  - apply setattr_raise_pure.
  - intros H. now inversion H.
Qed.

(** ** [get] *)

Lemma get_bound self key v h :
  mem key data_descriptors = false ->
  Dict.get key (attrs_of h self) = Some v ->
  get self key h
  = (Ok (match v with VNode c => VAttrs c | _ => v end), h).
Proof.
  intros Hd H. unfold get, bind.
  rewrite hasattr_node_bound by (unfold Dict.has; now rewrite H).
  rewrite (getattr_node_bound _ _ _ _ Hd H).
  destruct v; reflexivity.
Qed.

Lemma get_absent self key h :
  mem key class_names = false ->
  Dict.get key (attrs_of h self) = None ->
  get self key h = (Raise (key_error key), h).
Proof.
  intros Hc H. unfold get, bind.
  now rewrite hasattr_node_absent by auto.
Qed.

(** ** [remove_item] *)

Lemma remove_item_loop_raise_pure key keys : forall cur h e h',
  remove_item_loop key cur keys h = (Raise e, h') -> h' = h.
Proof.
  induction keys as [|k rest IH]; intros cur h e h'; simpl.
  - intros H. now inversion H.
  - unfold bind at 1. destruct (hasattr cur k h) as [[b|e0] h1] eqn:Eh;
      apply hasattr_pure in Eh; subst h1.
    + destruct b; simpl.
      * destruct rest as [|k2 rest].
        -- apply delattr_raise_pure.
        -- unfold bind. destruct (getattr cur k h) as [[x|e1] h1] eqn:Eg;
             apply getattr_pure in Eg; subst h1.
           ++ apply IH.
           ++ intros H. now inversion H.
      * intros H. now inversion H.
    + intros H. now inversion H.
Qed.

Lemma remove_item_loop_absent key pre : forall cur h k post parent,
  forallb (not_in data_descriptors) pre = true ->
  descend h cur pre = Some parent ->
  Dict.get k (attrs_of h parent) = None ->
  mem k class_names = false ->
  remove_item_loop key (VNode cur) (pre ++ k :: post) h
  = (Raise (key_error key), h).
Proof.
  induction pre as [|p pre IH]; intros cur h k post parent Hd Hp Hk Hc; simpl in *.
  - inversion Hp; subst parent. unfold bind.
    now rewrite hasattr_node_absent by auto.
  - apply andb_true_iff in Hd as [Hd1 Hd2].
    apply negb_true_iff in Hd1.
    destruct (Dict.get p (attrs_of h cur)) as [[]|] eqn:Ep; try discriminate.
    unfold bind at 1.
    rewrite hasattr_node_bound by (unfold Dict.has; now rewrite Ep). simpl.
    destruct (pre ++ k :: post) eqn:El; [now destruct pre|]. rewrite <- El.
    unfold bind. rewrite (getattr_node_bound _ _ _ _ Hd1 Ep).
    now apply IH with (parent := parent).
Qed.

Lemma remove_item_loop_bound key pre : forall cur h k parent,
  forallb (not_in data_descriptors) pre = true ->
  descend h cur pre = Some parent ->
  mem k data_descriptors = false ->
  Dict.has k (attrs_of h parent) = true ->
  remove_item_loop key (VNode cur) (pre ++ [k]) h
  = (Ok tt, <[parent := Dict.del k (attrs_of h parent)]> h).
Proof.
  induction pre as [|p pre IH]; intros cur h k parent Hd Hp Hkd Hk; simpl in *.
  - inversion Hp; subst parent. unfold bind.
    rewrite hasattr_node_bound by auto. simpl.
    now apply delattr_node_bound.
  - apply andb_true_iff in Hd as [Hd1 Hd2].
    apply negb_true_iff in Hd1.
    destruct (Dict.get p (attrs_of h cur)) as [[]|] eqn:Ep; try discriminate.
    unfold bind at 1.
    rewrite hasattr_node_bound by (unfold Dict.has; now rewrite Ep). simpl.
    destruct (pre ++ [k]) eqn:El; [now destruct pre|]. rewrite <- El.
    unfold bind. rewrite (getattr_node_bound _ _ _ _ Hd1 Ep).
    now apply IH.
Qed.

(** ** [add_item] *)


Lemma TomlConfig_empty h :
  TomlConfig 1 (VDict []) None h = (Ok (length h), h ++ [[]]).
Proof. reflexivity. Qed.





(** [add_item] keeps every instance dictionary free of repeated keys. *)





(** ** [to_dict] *)

Lemma bound_method_pure x name h r h' :
  bound_method x name h = (r, h') -> h' = h.
Proof.
  unfold bound_method, bind.
  destruct (getattr x name h) as [[f|e] h1] eqn:Eg;
    apply getattr_pure in Eg; subst h1.
  - destruct f; try (intros H; now inversion H).
    destruct f; try (intros H; now inversion H).
    destruct (_ && _); intros H; now inversion H.
  - intros H; now inversion H.
Qed.

Lemma to_dict_items_pure (rec : loc -> M dict) :
  (forall l h r h', rec l h = (r, h') -> h' = h) ->
  forall kvs data h r h',
    to_dict_items rec kvs data h = (r, h') -> h' = h.
Proof.
  intros Hrec. induction kvs as [|[key x] rest IH]; intros data h r h'; simpl.
  - intros H; now inversion H.
  - destruct (String.eqb key "__file__" || is_None x); [apply IH|].
    destruct (isinstance_TomlConfig x); [|apply IH].
    unfold bind at 1.
    destruct (bound_method x "to_dict" h) as [[recv|e] h1] eqn:Eb;
      apply bound_method_pure in Eb; subst h1;
      [|intros H; now inversion H].
    unfold bind.
    destruct (rec recv h) as [[sub|e] h1] eqn:Er;
      apply Hrec in Er; subst h1; [apply IH|intros H; now inversion H].
Qed.

Lemma to_dict_pure limit : forall self h r h',
  to_dict limit self h = (r, h') -> h' = h.
Proof.
  induction limit as [|limit IH]; intros self h r h'; simpl.
  - intros H; now inversion H.
  - unfold bind, read_attrs. now apply to_dict_items_pure.
Qed.

Lemma to_dict_unfold limit self h :
  to_dict (S limit) self h
  = to_dict_items (to_dict limit) (attrs_of h self) [] h.
Proof. reflexivity. Qed.



(** ** The constructor *)

Lemma depth_VDict kvs : depth (VDict kvs) = S (depth_items kvs).
Proof. reflexivity. Qed.

Lemma plain_VDict kvs :
  plain (VDict kvs)
  = not_in (Dict.keys kvs) "to_dict" && nodup_keys kvs && plain_items kvs.
Proof. reflexivity. Qed.

Lemma nodup_keys_NoDup d : nodup_keys d = true <-> NoDup (Dict.keys d).
Proof.
  induction d as [|[k x] rest IH]; simpl.
  - split; [constructor | reflexivity].
  - rewrite andb_true_iff, IH. unfold not_in. rewrite negb_true_iff, mem_false.
    rewrite NoDup_cons, list_elem_of_In. tauto.
Qed.

Lemma assign_all_fresh entries : forall d,
  NoDup (Dict.keys d ++ Dict.keys entries) ->
  assign_all entries d = d ++ entries.
Proof.
  unfold assign_all.
  induction entries as [|[k x] rest IH]; intros d Hnd; simpl.
  - now rewrite app_nil_r.
  - assert (Hk : Dict.get k d = None).
    { apply DictFacts.get_None_keys. intros Hin.
      apply NoDup_app in Hnd as (_ & Hdis & _).
      apply (Hdis k); [now apply list_elem_of_In|]. simpl. left. }
    rewrite DictFacts.set_absent by auto. rewrite IH.
    + now rewrite <- app_assoc.
    + unfold Dict.keys in *. rewrite map_app. simpl.
      now rewrite <- app_assoc.
Qed.

Lemma agree_trans lo hi h1 h2 h3 :
  agree lo hi h1 h2 -> agree lo hi h2 h3 -> agree lo hi h1 h3.
Proof.
  intros H12 H23 l Hl. now rewrite H23, H12.
Qed.

Lemma agree_narrow lo hi lo' hi' h1 h2 :
  lo' <= lo -> hi <= hi' -> agree lo' hi' h1 h2 -> agree lo hi h1 h2.
Proof.
  intros Hlo Hhi H l Hl. apply H. lia.
Qed.

Lemma exports_move lo hi lo' hi' h h2 x sub :
  lo' <= lo -> hi <= hi' -> agree lo hi h h2 ->
  exports lo hi h x sub -> exports lo' hi' h2 x sub.
Proof.
  intros Hlo Hhi Hag He limit hx Hd Hx. apply He; auto.
  eapply agree_trans; [exact Hag|]. eapply agree_narrow; eauto.
Qed.

Lemma entry_mirrors_move lo hi lo' hi' h h2 src got :
  lo' <= lo -> hi <= hi' -> agree lo hi h h2 ->
  entry_mirrors lo hi h src got -> entry_mirrors lo' hi' h2 src got.
Proof.
  intros Hlo Hhi Hag [Hk Hv]. split; [exact Hk|].
  destruct (snd src); auto.
  destruct Hv as (c & Hc & He). exists c. split; [exact Hc|].
  eapply exports_move; eauto.
Qed.

Lemma entry_mirrors_keys lo hi h kvs got :
  Forall2 (entry_mirrors lo hi h) kvs got -> Dict.keys got = Dict.keys kvs.
Proof.
  induction 1 as [|src g kvs got [Hk _] _ IH]; simpl; auto.
  now rewrite Hk, IH.
Qed.


Section ConstructorLoop.

Variable limit : nat.

(** What the nested constructor calls are known to do. *)
Hypothesis nested : forall sub h,
  plain (VDict sub) = true -> depth (VDict sub) <= limit ->
  exists h',
    TomlConfig limit (VDict sub) None h = (Ok (length h), h')
    /\ length h < length h'
    /\ (forall l, l < length h -> h' !! l = h !! l)
    /\ exports (length h) (length h') h' (VNode (length h)) sub.

Lemma init_items_mirrors s : forall kvs hcur,
  s < length hcur -> plain_items kvs = true -> depth_items kvs <= limit ->
  exists hfin got,
    init_items (fun x => TomlConfig limit x None) s kvs hcur = (Ok tt, hfin)
    /\ length hcur <= length hfin
    /\ (forall l, l < length hcur -> l <> s -> hfin !! l = hcur !! l)
    /\ attrs_of hfin s = assign_all got (attrs_of hcur s)
    /\ Forall2 (entry_mirrors (length hcur) (length hfin) hfin) kvs got.
Proof.
  induction kvs as [|[key x] rest IH]; intros hcur Hs Hp Hd.
  - exists hcur, []. simpl. repeat split; auto.
  - simpl in Hp, Hd.
    apply andb_true_iff in Hp as [Hp Hprest].
    apply andb_true_iff in Hp as [Hp Hpx].
    apply andb_true_iff in Hp as [Hkf Hkd].
    unfold not_in in Hkd. apply negb_true_iff in Hkd.
    assert (Hdrest : depth_items rest <= limit) by lia.
    assert (Hleaf : isinstance_dict x = false \/ exists sub, x = VDict sub).
    { destruct x; simpl; eauto; discriminate. }
    destruct Hleaf as [Hnd|[sub ->]].
    + (* the value itself is stored *)
      set (h2 := <[s := Dict.set key x (attrs_of hcur s)]> hcur).
      assert (Hlen2 : length h2 = length hcur)
        by (unfold h2; now rewrite length_insert).
      destruct (IH h2) as (hfin & got & Hrun & Hlen & Hcells & Hattrs & Hm);
        auto; [lia|].
      exists hfin, ((key, x) :: got). repeat split.
      * simpl. rewrite Hnd. unfold bind at 1.
        rewrite setattr_node by auto. exact Hrun.
      * lia.
      * intros l Hl Hne. rewrite Hcells by (auto; lia).
        unfold h2. now rewrite list_lookup_insert_ne.
      * rewrite Hattrs. unfold h2. now rewrite attrs_of_write_same.
      * constructor.
        -- split; [reflexivity|]. simpl.
           destruct x; try reflexivity; discriminate.
        -- eapply Forall2_impl; [exact Hm|].
           intros src g Hg. eapply entry_mirrors_move; [| |intros l Hl; reflexivity|exact Hg]; lia.
    + (* a nested table becomes a sub-node *)
      assert (Hdsub : depth (VDict sub) <= limit) by lia.
      destruct (nested sub hcur Hpx Hdsub) as (h1 & Hnew & Hlen1 & Hpre1 & Hexp).
      set (c := length hcur) in *.
      set (h2 := <[s := Dict.set key (VNode c) (attrs_of h1 s)]> h1).
      assert (Hlen2 : length h2 = length h1)
        by (unfold h2; now rewrite length_insert).
      destruct (IH h2) as (hfin & got & Hrun & Hlen & Hcells & Hattrs & Hm);
        auto; [lia|].
      assert (Hattr1 : attrs_of h1 s = attrs_of hcur s).
      { unfold attrs_of. now rewrite Hpre1. }
      assert (Hag : agree c (length h1) h1 hfin).
      { intros l Hl. rewrite Hcells by (unfold c in Hl; lia).
        unfold h2. apply list_lookup_insert_ne. unfold c in Hl. lia. }
      exists hfin, ((key, VNode c) :: got). repeat split.
      * simpl. unfold bind at 1. unfold bind at 1. rewrite Hnew.
        rewrite setattr_node by auto. exact Hrun.
      * lia.
      * intros l Hl Hne. rewrite Hcells by (auto; lia).
        unfold h2. rewrite list_lookup_insert_ne by auto. now apply Hpre1.
      * rewrite Hattrs. unfold h2. rewrite attrs_of_write_same by lia.
        now rewrite Hattr1.
      * constructor.
        -- split; [reflexivity|]. simpl. exists c. split; [reflexivity|].
           eapply exports_move; [| |exact Hag|exact Hexp]; lia.
        -- eapply Forall2_impl; [exact Hm|].
           intros src g Hg. eapply entry_mirrors_move; [| |intros l Hl; reflexivity|exact Hg]; lia.
Qed.

End ConstructorLoop.

Lemma to_dict_items_step_node limit key c rest data hx sub :
  String.eqb key "__file__" = false ->
  method_to_dict limit (VNode c) hx = (Ok sub, hx) ->
  to_dict_items (to_dict limit) ((key, VNode c) :: rest) data hx
  = to_dict_items (to_dict limit) rest (Dict.set key (VDict sub) data) hx.
Proof.
  intros Hk H. simpl. rewrite Hk. simpl.
  unfold method_to_dict, bind in *.
  destruct (bound_method (VNode c) "to_dict" hx) as [[r|e] h1]; [|discriminate].
  destruct (to_dict limit r h1) as [[s'|e] h2]; [|discriminate].
  now inversion H.
Qed.

Lemma to_dict_items_mirrors limit lo hi hfin kvs got :
  Forall2 (entry_mirrors lo hi hfin) kvs got ->
  forall acc hx,
    agree lo hi hfin hx -> plain_items kvs = true ->
    depth_items kvs <= limit ->
    NoDup (Dict.keys acc ++ Dict.keys kvs) ->
    to_dict_items (to_dict limit) got acc hx = (Ok (acc ++ kvs), hx).
Proof.
  induction 1 as [|[key x] [key' y] kvs got [Hk Hv] _ IH];
    intros acc hx Hag Hp Hd Hnd.
  - simpl. now rewrite app_nil_r.
  - simpl in Hk, Hv, Hp, Hd, Hnd. subst key'.
    apply andb_true_iff in Hp as [Hp Hprest].
    apply andb_true_iff in Hp as [Hp Hpx].
    apply andb_true_iff in Hp as [Hkf _].
    apply negb_true_iff in Hkf.
    assert (Hfresh : Dict.get key acc = None).
    { apply DictFacts.get_None_keys. intros Hin.
      apply NoDup_app in Hnd as (_ & Hdis & _).
      apply (Hdis key).
      - now apply list_elem_of_In.
      - left. }
    assert (Hnd' : forall z,
      NoDup (Dict.keys (acc ++ [(key, z)]) ++ Dict.keys kvs)).
    { intros z. unfold Dict.keys in *. rewrite map_app. simpl.
      now rewrite <- app_assoc. }
    assert (Hnext : forall z,
      to_dict_items (to_dict limit) got (Dict.set key z acc) hx
      = (Ok (acc ++ (key, z) :: kvs), hx)).
    { intros z. rewrite DictFacts.set_absent by auto.
      rewrite IH; auto; [|lia]. now rewrite <- app_assoc. }
    destruct x; simpl in Hv; subst; try discriminate;
      try (simpl; rewrite Hkf; simpl; apply Hnext).
    destruct Hv as (c & -> & He).
    rewrite (to_dict_items_step_node _ _ _ _ _ _ items0); auto.
    apply He; auto. lia.
Qed.

(** The constructor succeeds on a plain mapping within the recursion limit;
    it allocates the root at the first free location, leaves the older
    objects alone, and the root exports the mapping. *)
Lemma TomlConfig_exports : forall limit kvs h,
  nodup_keys kvs = true -> plain_items kvs = true ->
  depth (VDict kvs) <= limit ->
  exists h',
    TomlConfig limit (VDict kvs) None h = (Ok (length h), h')
    /\ length h < length h'
    /\ (forall l, l < length h -> h' !! l = h !! l)
    /\ (forall limit' hx,
          depth (VDict kvs) <= limit' -> agree (length h) (length h') h' hx ->
          to_dict limit' (length h) hx = (Ok kvs, hx))
    /\ Dict.keys (attrs_of h' (length h)) = Dict.keys kvs.
Proof.
  induction limit as [|limit IHl]; intros kvs h Hnd Hp Hd.
  - rewrite depth_VDict in Hd. lia.
  - rewrite depth_VDict in Hd.
    assert (nested : forall sub h0,
      plain (VDict sub) = true -> depth (VDict sub) <= limit ->
      exists h',
        TomlConfig limit (VDict sub) None h0 = (Ok (length h0), h')
        /\ length h0 < length h'
        /\ (forall l, l < length h0 -> h' !! l = h0 !! l)
        /\ exports (length h0) (length h') h' (VNode (length h0)) sub).
    { intros sub h0 Hps Hds. rewrite plain_VDict in Hps.
      apply andb_true_iff in Hps as [Hps Hpi].
      apply andb_true_iff in Hps as [Hto Hn].
      destruct (IHl sub h0 Hn Hpi Hds) as (h' & Hrun & Hlen & Hpre & Hexp & Hkeys).
      exists h'. repeat split; auto.
      intros limit' hx Hd' Hag. unfold method_to_dict, bind.
      assert (Hbm : bound_method (VNode (length h0)) "to_dict" hx
                    = (Ok (length h0), hx)).
      { unfold bound_method, bind.
        assert (Ha : attrs_of hx (length h0) = attrs_of h' (length h0)).
        { unfold attrs_of. rewrite Hag by lia. reflexivity. }
        assert (Hg : getattr (VNode (length h0)) "to_dict" hx
                     = (Ok (VAttrOf (VNode (length h0)) "to_dict"), hx)).
        { unfold getattr, bind, read_attrs. simpl.
          rewrite Ha.
          assert (Dict.get "to_dict" (attrs_of h' (length h0)) = None) as ->.
          { apply DictFacts.get_None_keys. rewrite Hkeys.
            unfold not_in in Hto. apply negb_true_iff in Hto.
            now apply mem_false. }
          reflexivity. }
        rewrite Hg. reflexivity. }
      rewrite Hbm. now apply Hexp. }
    rewrite TomlConfig_unfold.
    destruct (init_items_mirrors limit nested (length h) kvs (h ++ [[]]))
      as (hfin & got & Hrun & Hlen & Hcells & Hattrs & Hm); auto; try lia.
    { rewrite length_app. simpl. lia. }
    rewrite length_app in Hlen, Hcells, Hm. simpl in Hlen, Hcells, Hm.
    assert (Hkeys : Dict.keys got = Dict.keys kvs)
      by (eapply entry_mirrors_keys; eauto).
    assert (Hgot : attrs_of hfin (length h) = got).
    { rewrite Hattrs, attrs_of_new. apply assign_all_fresh. simpl.
      rewrite Hkeys. now apply nodup_keys_NoDup. }
    exists hfin. rewrite Hrun. repeat split.
    + lia.
    + intros l Hl. rewrite Hcells by lia. now apply lookup_app_l.
    + intros limit' hx Hd' Hag. rewrite depth_VDict in Hd'.
      destruct limit' as [|limit']; [lia|].
      rewrite to_dict_unfold.
      assert (attrs_of hx (length h) = got) as ->.
      { rewrite <- Hgot. unfold attrs_of. rewrite Hag by lia. reflexivity. }
      apply (to_dict_items_mirrors limit' _ _ _ _ _ Hm []); auto; try lia.
      * eapply agree_narrow; [| |exact Hag]; lia.
      * simpl. now apply nodup_keys_NoDup.
    + now rewrite Hgot.
Qed.

(** ** Where the constructor writes, and the attribute [__file__] *)

Lemma setattr_error x k v h e h' :
  setattr x k v h = (Raise e, h') -> constructor_error e = true.
Proof.
  destruct x; unfold setattr, builtin_names, bind, read_attrs, write_attrs, raise;
    split_tests; intros H; inversion H; reflexivity.
Qed.

Lemma setattr_node_cases l k v h r h' :
  setattr (VNode l) k v h = (r, h') ->
  (r = Raise OutsideModel /\ h' = h)
  \/ (r = Ok tt /\ mem k data_descriptors = false
      /\ h' = <[l := Dict.set k v (attrs_of h l)]> h).
Proof.
  unfold setattr, bind, read_attrs, write_attrs, raise.
  destruct (mem k data_descriptors); intros H; inversion H; auto.
Qed.

Lemma no_origin_from_write lo h l k v :
  k <> "__file__" -> no_origin_from lo h ->
  no_origin_from lo (<[l := Dict.set k v (attrs_of h l)]> h).
Proof.
  intros Hk Hc l' Hl'. destruct (Nat.eq_dec l l') as [<-|Hne].
  - destruct (Nat.lt_ge_cases l (length h)).
    + rewrite attrs_of_write_same by auto.
      rewrite DictFacts.get_set_other by auto. now apply Hc.
    + rewrite list_insert_ge by auto. now apply Hc.
  - rewrite attrs_of_write_other by auto. now apply Hc.
Qed.

Section ConstructorFrame.

Variable limit : nat.

Hypothesis nested : forall x h r h',
  TomlConfig limit x None h = (r, h') ->
  length h <= length h'
  /\ (forall l, l < length h -> h' !! l = h !! l)
  /\ (forall e, r = Raise e -> constructor_error e = true)
  /\ (no_origin_key x = true -> no_origin_from (length h) h').

Lemma init_items_frame s lo : forall kvs hcur r hfin,
  init_items (fun x => TomlConfig limit x None) s kvs hcur = (r, hfin) ->
  lo <= length hcur ->
  length hcur <= length hfin
  /\ (forall l, l < length hcur -> l <> s -> hfin !! l = hcur !! l)
  /\ (forall e, r = Raise e -> constructor_error e = true)
  /\ (no_origin_items kvs = true -> no_origin_from lo hcur ->
      no_origin_from lo hfin).
Proof.
  induction kvs as [|[key x] rest IH]; intros hcur r hfin Hrun Hlo.
  - inversion Hrun; subst. repeat split; auto. discriminate.
  - simpl in Hrun. unfold bind at 1 in Hrun.
    (* the assignment of this entry *)
    assert (Hstep : forall h1 v,
      length hcur <= length h1 ->
      (forall l, l < length hcur -> h1 !! l = hcur !! l) ->
      (no_origin_items ((key, x) :: rest) = true ->
       no_origin_from lo hcur -> no_origin_from lo h1) ->
      (let (o, h2) := setattr (VNode s) key v h1 in
       match o with
       | Ok a => init_items (fun x => TomlConfig limit x None) s rest h2
       | Raise e => (Raise e, h2)
       end) = (r, hfin) ->
      length hcur <= length hfin
      /\ (forall l, l < length hcur -> l <> s -> hfin !! l = hcur !! l)
      /\ (forall e, r = Raise e -> constructor_error e = true)
      /\ (no_origin_items ((key, x) :: rest) = true ->
          no_origin_from lo hcur -> no_origin_from lo hfin)).
    { intros h1 v Hlen1 Hpre1 Hclean1 H.
      destruct (setattr (VNode s) key v h1) as [o h2] eqn:Es.
      destruct (setattr_node_cases _ _ _ _ _ _ Es) as [[-> ->]|(-> & Hkd & ->)].
      - inversion H; subst. repeat split; auto.
        intros e He. now inversion He.
      - destruct (IH _ _ _ H) as (Hl & Hc & He & Hcl).
        { rewrite length_insert. lia. }
        rewrite length_insert in Hl, Hc. repeat split.
        + lia.
        + intros l Hl' Hne. rewrite Hc by (auto; lia).
          rewrite list_lookup_insert_ne by auto. now apply Hpre1.
        + exact He.
        + intros Hno Hcl0. apply Hcl.
          * simpl in Hno. apply andb_true_iff in Hno. tauto.
          * apply no_origin_from_write; [|now apply Hclean1].
            simpl in Hno. apply andb_true_iff in Hno as [Hno _].
            apply andb_true_iff in Hno as [Hno _].
            apply negb_true_iff, String.eqb_neq in Hno. exact Hno. }
    destruct (isinstance_dict x) eqn:Ed.
    + unfold bind at 1 in Hrun.
      destruct (TomlConfig limit x None hcur) as [[child|e] h1] eqn:Ec;
        destruct (nested _ _ _ _ Ec) as (Hlen1 & Hpre1 & Herr1 & Hcl1).
      * apply (Hstep h1 (VNode child)); auto.
        intros Hno Hcl0 l Hl.
        destruct (Nat.lt_ge_cases l (length hcur)).
        -- unfold attrs_of. rewrite Hpre1 by auto. now apply Hcl0.
        -- apply Hcl1; auto. simpl in Hno.
           apply andb_true_iff in Hno as [Hno _].
           apply andb_true_iff in Hno. tauto.
      * inversion Hrun; subst. repeat split; auto.
        -- intros e0 He0. inversion He0; subst. now apply Herr1.
        -- intros Hno Hcl0 l Hl.
           destruct (Nat.lt_ge_cases l (length hcur)).
           ++ unfold attrs_of. rewrite Hpre1 by auto. now apply Hcl0.
           ++ apply Hcl1; auto. simpl in Hno.
              apply andb_true_iff in Hno as [Hno _].
              apply andb_true_iff in Hno. tauto.
    + apply (Hstep hcur x); auto.
Qed.

End ConstructorFrame.

Lemma TomlConfig_frame : forall limit data filename h r h',
  TomlConfig limit data filename h = (r, h') ->
  length h <= length h'
  /\ (forall l, l < length h -> h' !! l = h !! l)
  /\ (forall e, r = Raise e -> constructor_error e = true)
  /\ (forall root, r = Ok root -> root = length h /\ length h < length h')
  /\ (no_origin_key data = true ->
      no_origin_from (S (length h)) h'
      /\ (truthy filename = false -> no_origin_from (length h) h')).
Proof.
  induction limit as [|limit IHl]; intros data filename h r h' Hrun.
  - inversion Hrun; subst. repeat split; auto; try discriminate.
    + intros e He. now inversion He.
    + intros l Hl. now rewrite attrs_of_dangling by lia.
    + intros _ l Hl. now rewrite attrs_of_dangling by lia.
  - rewrite TomlConfig_S in Hrun.
    assert (nested : forall x h0 r0 h0',
      TomlConfig limit x None h0 = (r0, h0') ->
      length h0 <= length h0'
      /\ (forall l, l < length h0 -> h0' !! l = h0 !! l)
      /\ (forall e, r0 = Raise e -> constructor_error e = true)
      /\ (no_origin_key x = true -> no_origin_from (length h0) h0')).
    { intros x h0 r0 h0' H0.
      destruct (IHl _ _ _ _ _ H0) as (H1 & H2 & H3 & _ & H5).
      repeat split; auto. intros Hno. now apply H5. }
    unfold bind at 1 in Hrun. unfold alloc in Hrun.
    set (s := length h) in *. set (h1 := h ++ [[]]) in *.
    assert (Hlen1 : length h1 = S s)
      by (unfold h1, s; rewrite length_app; simpl; lia).
    assert (Hcl1 : no_origin_from s h1).
    { intros l Hl. destruct (Nat.eq_dec l s) as [->|].
      - unfold h1, s. now rewrite attrs_of_new.
      - now rewrite attrs_of_dangling by lia. }
    unfold bind at 1 in Hrun.
    destruct (items data h1) as [[kvs|e] hi] eqn:Ei.
    2:{ assert (hi = h1 /\ constructor_error e = true) as [-> He].
        { destruct data; simpl in Ei; inversion Ei; auto. }
        inversion Hrun; subst. repeat split; try discriminate.
        - rewrite Hlen1. lia.
        - intros l Hl. now apply lookup_app_l.
        - intros e0 He0. inversion He0; subst. exact He.
        - intros l Hl. apply Hcl1. lia.
        - intros _. exact Hcl1. }
    assert (Hno_items : hi = h1
              /\ (no_origin_key data = true -> no_origin_items kvs = true)).
    { destruct data; simpl in Ei; inversion Ei; subst; split; auto.
      discriminate. }
    destruct Hno_items as [-> Hno_items].
    unfold bind at 1 in Hrun.
    destruct (init_items _ s kvs h1) as [o h2] eqn:El.
    destruct (init_items_frame limit nested s s _ _ _ _ El)
      as (Hlen2 & Hcells2 & Herr2 & Hcl2); [lia|].
    assert (Hpre2 : forall l, l < length h -> h2 !! l = h !! l).
    { intros l Hl. rewrite Hcells2 by (fold s in Hl; lia).
      now apply lookup_app_l. }
    destruct o as [u|e].
    2:{ inversion Hrun; subst. repeat split; try discriminate.
        - lia.
        - exact Hpre2.
        - intros e0 He0. inversion He0; subst. now apply Herr2.
        - intros l Hl. apply Hcl2; auto. lia.
        - intros _. apply Hcl2; auto. }
    unfold bind at 1 in Hrun.
    destruct ((match filename with
               | Some f => if truthy filename
                           then setattr (VNode s) "__file__" (VStr f)
                           else ret tt
               | None => ret tt
               end) h2) as [o3 h3] eqn:Ef.
    assert (Hfile : (truthy filename = false -> o3 = Ok tt /\ h3 = h2)
      /\ (o3 = Ok tt
          /\ h3 = <[s := Dict.set "__file__"
                           (VStr (match filename with Some f => f | None => "" end))
                           (attrs_of h2 s)]> h2
          \/ o3 = Ok tt /\ h3 = h2)).
    { destruct filename as [f|]; [destruct (truthy (Some f)) eqn:Et|].
      - rewrite setattr_node in Ef by reflexivity. inversion Ef; subst.
        split; [discriminate|]. left. auto.
      - inversion Ef; subst. split; auto.
      - inversion Ef; subst. split; auto. }
    destruct Hfile as [Hfalsy Hcases].
    assert (Ho3 : o3 = Ok tt) by (destruct Hcases as [[? _]|[? _]]; auto).
    subst o3. inversion Hrun; subst r h'.
    assert (Hlen3 : length h3 = length h2).
    { destruct Hcases as [[_ ->]|[_ ->]]; auto. now rewrite length_insert. }
    assert (Hother : forall l, l <> s -> h3 !! l = h2 !! l).
    { intros l Hne. destruct Hcases as [[_ ->]|[_ ->]]; auto.
      now rewrite list_lookup_insert_ne. }
    repeat split; try discriminate.
    + lia.
    + intros l Hl. rewrite Hother by (fold s in Hl; lia). now apply Hpre2.
    + now inversion H.
    + inversion H; subst. lia.
    + intros l Hl. unfold attrs_of. rewrite Hother by lia.
      apply Hcl2; auto. lia.
    + intros Hf. destruct (Hfalsy Hf) as [_ ->]. now apply Hcl2; auto.
Qed.


(** ** Walking a path that is already there *)







(** ** [save] *)

Lemma no_class_origin : mem "__file__" class_names = false.
Proof. reflexivity. Qed.

Lemma save_without_origin toml_dumps limit self fs h :
  Dict.get "__file__" (attrs_of h self) = None ->
  save toml_dumps limit self fs h = (Raise AttributeError, h, fs).
Proof.
  intros H. unfold save.
  now rewrite (getattr_node_absent _ _ _ H no_class_origin).
Qed.

Lemma bound_method_own self name h :
  mem name TomlConfig_defs = true ->
  Dict.get name (attrs_of h self) = None ->
  bound_method (VNode self) name h = (Ok self, h).
Proof.
  intros Hn Hg. unfold bound_method, bind.
  assert (Hc : mem name class_names = true).
  { apply mem_In. unfold class_names. apply in_or_app. left.
    now apply mem_In. }
  assert (Hd : mem name data_descriptors = false).
  { apply mem_false. intros Hin. apply mem_In in Hn.
    simpl in Hin, Hn. intuition (subst; discriminate). }
  unfold getattr. rewrite (descriptor_not_dict _ Hd), Hd.
  unfold bind, read_attrs, ret. rewrite Hg, Hc.
  now rewrite String.eqb_refl, Hn.
Qed.


(** * The claims *)

(** ** C1: construction followed by [to_dict] *)

(** C1, as stated, fails: the mapping [{"a": None}] (JSON [{"a": null}])
    becomes a node whose export is the empty mapping, because [to_dict]
    skips every entry whose value is [None]. *)
Lemma C1_roundtrip_drops_None :
  TomlConfig 1 (VDict [("a", VNone)]) None [] = (Ok 0, [[("a", VNone)]])
  /\ to_dict 1 0 [[("a", VNone)]] = (Ok [], [[("a", VNone)]])
  /\ ([] : dict) <> [("a", VNone)].
Proof. repeat split. discriminate. Qed.

(** C1 (amended): for every plain nested mapping [M] in which no table binds
    a key to [None] or has one of the keys [__file__], [to_dict], [__dict__],
    [__class__], [__weakref__], constructing a node from [M] with no origin
    path succeeds within the recursion limit, and [to_dict] on that node,
    run as the method body or called as [node.to_dict()], returns a mapping
    equal to [M], entries in the same order. *)
Theorem C1_roundtrip (M : dict) (limit limit' : nat) (h : heap) :
  plain_mapping M = true ->
  depth (VDict M) <= limit -> depth (VDict M) <= limit' ->
  exists root h',
    TomlConfig limit (VDict M) None h = (Ok root, h')
    /\ to_dict limit' root h' = (Ok M, h')
    /\ method_to_dict limit' (VNode root) h' = (Ok M, h').
Proof.
  intros Hp Hd Hd'. unfold plain_mapping in Hp. rewrite plain_VDict in Hp.
  apply andb_true_iff in Hp as [Hp Hi].
  apply andb_true_iff in Hp as [Hto Hn].
  destruct (TomlConfig_exports limit M h Hn Hi Hd)
    as (h' & Hrun & _ & _ & Hexp & Hkeys).
  assert (Hbody : to_dict limit' (length h) h' = (Ok M, h')).
  { apply Hexp; [exact Hd'|]. intros l _. reflexivity. }
  exists (length h), h'. split; [exact Hrun|]. split; [exact Hbody|].
  unfold method_to_dict, bind. rewrite bound_method_own; auto.
  apply DictFacts.get_None_keys. rewrite Hkeys.
  unfold not_in in Hto. apply negb_true_iff in Hto. now apply mem_false.
Qed.

Lemma C1_roundtrip_witness :
  let M := [("a", VDict [("b", VInt 1); ("t", VList [VNone])]); ("c", VStr "x")] in
  plain_mapping M = true
  /\ exists root h',
       TomlConfig 2 (VDict M) None [] = (Ok root, h')
       /\ to_dict 2 root h' = (Ok M, h')
       /\ method_to_dict 2 (VNode root) h' = (Ok M, h').
Proof.
  split; [reflexivity|].
  apply (C1_roundtrip _ 2 2 []); [reflexivity | simpl; lia | simpl; lia].
Defined.

(** ** C2: [save] *)

(** C2, at the failing input: a node imported by [from_json] has no
    [__file__] attribute, and [save] on it raises [AttributeError] when it
    reads [self.__file__]; the [ValueError] ("Original filename not
    available") that the method means to raise is never reached. *)
Theorem C2_save_after_from_json_raises_AttributeError
    (toml_dumps : dict -> codec string) :
  let json_load := fun _ : string => Done (VDict []) in
  let fs : files := {[ "c.json" := "{}" ]} in
  from_json json_load 1 "c.json" fs [] = (Ok 0, [[]])
  /\ save toml_dumps 1 0 fs [[]] = (Raise AttributeError, [[]], fs).
Proof.
  split; [reflexivity|]. now apply save_without_origin.
Qed.

(** ** C3: [get] *)

(** C3, as stated, fails twice.  What [get] returns for a sub-table is the
    sub-node's own instance dictionary, not a snapshot: an entry added to the
    sub-node afterwards shows in the mapping returned before.  And a key that
    is not bound but names a method of the class does not raise: [get]
    returns the bound method. *)
Lemma C3_get_returns_live_dictionary :
  let h := [[("data", VNode 1)]; [("key", VInt 1)]] in
  let h' := [[("data", VNode 1)]; [("key", VInt 1); ("key2", VInt 2)]] in
  get 0 "data" h = (Ok (VAttrs 1), h)
  /\ items (VAttrs 1) h = (Ok [("key", VInt 1)], h)
  /\ add_item 1 "key2" (VInt 2) h = (Ok tt, h')
  /\ items (VAttrs 1) h' = (Ok [("key", VInt 1); ("key2", VInt 2)], h')
  /\ Dict.get "save" (attrs_of h 0) = None
  /\ get 0 "save" h = (Ok (VAttrOf (VNode 0) "save"), h).
Proof. repeat split. Qed.

(** C3 (amended): for a key that is none of [__dict__], [__class__],
    [__weakref__]: if the key is bound to a sub-node, [get] returns that
    sub-node's live instance dictionary, the dictionary itself, so that in
    any later store it shows the sub-node's entries of that moment, nested
    sub-nodes in it being the nodes they are; if the key is bound to anything
    else, [get] returns the value as it is; if the key is not bound and is
    not a name of the class, [get] raises [KeyError] naming the key.  No
    dotted lookup takes place: the key is looked up whole. *)
Theorem C3_get (self : loc) (key : string) (h : heap) :
  mem key data_descriptors = false ->
  (forall c, Dict.get key (attrs_of h self) = Some (VNode c) ->
     get self key h = (Ok (VAttrs c), h)
     /\ forall h', items (VAttrs c) h' = (Ok (attrs_of h' c), h'))
  /\ (forall v, Dict.get key (attrs_of h self) = Some v ->
        isinstance_TomlConfig v = false -> get self key h = (Ok v, h))
  /\ (Dict.get key (attrs_of h self) = None -> mem key class_names = false ->
        get self key h = (Raise (key_error key), h)).
Proof.
  intros Hd. repeat split.
  - now rewrite (get_bound _ _ _ _ Hd H).
  - intros v Hv Hi. rewrite (get_bound _ _ _ _ Hd Hv).
    destruct v; try reflexivity; discriminate.
  - intros Hn Hc. now apply get_absent.
Qed.

Lemma C3_get_witness :
  let h := [[("data", VNode 1); ("n", VInt 7)]; [("key", VInt 1); ("sub", VNode 2)]; []] in
  mem "data" data_descriptors = false
  /\ get 0 "data" h = (Ok (VAttrs 1), h)
  /\ items (VAttrs 1) h = (Ok [("key", VInt 1); ("sub", VNode 2)], h)
  /\ get 0 "n" h = (Ok (VInt 7), h)
  /\ get 0 "data.key" h = (Raise (KeyError "Key 'data.key' does not exist."), h).
Proof.
  intros h.
  destruct (C3_get 0 "data" h eq_refl) as (Hnode & _ & _).
  destruct (Hnode 1 eq_refl) as [Hget Hlive].
  destruct (C3_get 0 "n" h eq_refl) as (_ & Hraw & _).
  destruct (C3_get 0 "data.key" h eq_refl) as (_ & _ & Habsent).
  split; [reflexivity|]. split; [exact Hget|]. split; [exact (Hlive h)|].
  split; [exact (Hraw (VInt 7) eq_refl eq_refl)|].
  exact (Habsent eq_refl eq_refl).
Defined.

(** ** C4: [add_item] *)




(** ** C5: [remove_item] *)




(** ** C6: [update_item] *)




(** ** C7: the origin path *)






(** ** C8: [load] *)

Lemma touch_lookup p fs : touch p fs !! p = Some (default "" (fs !! p)).
Proof.
  unfold touch. destruct (fs !! p) eqn:E; simpl.
  - exact E.
  - apply lookup_insert_eq.
Qed.



(** ** C9: a failed mutation changes nothing *)

(** C9: whenever [remove_item] or [update_item] raises [KeyError], the store
    after the call is the store before it: no object was created, and no
    entry of any node was bound, rebound or removed. *)
Theorem C9_failed_mutators_change_nothing (self : loc) (key : string)
    (v : value) (h h' : heap) (msg : string) :
  (remove_item self key h = (Raise (KeyError msg), h') -> h' = h)
  /\ (update_item self key v h = (Raise (KeyError msg), h') -> h' = h).
Proof.
  split.
  - apply remove_item_loop_raise_pure.
  - apply update_item_raise_pure.
Qed.

Lemma C9_failed_mutators_change_nothing_witness :
  let h := [[("a", VNode 1)]; [("b", VInt 1)]] in
  remove_item 0 "a.c" h = (Raise (KeyError "Key 'a.c' does not exist."), h)
  /\ update_item 0 "c" (VInt 2) h
     = (Raise (KeyError "Key 'c' does not exist."), h)
  /\ snd (remove_item 0 "a.c" h) = h
  /\ snd (update_item 0 "c" (VInt 2) h) = h.
Proof.
  intros h. split; [reflexivity|]. split; [reflexivity|].
  destruct (C9_failed_mutators_change_nothing 0 "a.c" VNone h
              (snd (remove_item 0 "a.c" h)) "Key 'a.c' does not exist.")
    as [Hr _].
  destruct (C9_failed_mutators_change_nothing 0 "c" (VInt 2) h
              (snd (update_item 0 "c" (VInt 2) h)) "Key 'c' does not exist.")
    as [_ Hu].
  split; [exact (Hr eq_refl) | exact (Hu eq_refl)].
Defined.

(** ** C10: a mapping given to [add_item] *)



Lemma dict_get_In k v (d : dict) : Dict.get k d = Some v -> In (k, v) d.
Proof.
  induction d as [|[k' v'] d IH]; simpl; [discriminate|].
  destruct (String.eqb k k') eqn:E.
  - apply String.eqb_eq in E. intros H. inversion H; subst. now left.
  - intros H. right. now apply IH.
Qed.




(** * Further properties of the methods *)

(** ** The methods that only read *)

Lemma get_pure self key h r h' : get self key h = (r, h') -> h' = h.
Proof.
  unfold get, bind.
  destruct (hasattr (VNode self) key h) as [[b|e] h1] eqn:Eh;
    apply hasattr_pure in Eh; subst h1; [|intros H; now inversion H].
  destruct b; [|intros H; now inversion H].
  destruct (getattr (VNode self) key h) as [[x|e] h1] eqn:Eg;
    apply getattr_pure in Eg; subst h1; [|intros H; now inversion H].
  destruct (isinstance_TomlConfig x).
  - apply getattr_pure.
  - intros H; now inversion H.
Qed.

Lemma method_to_dict_pure limit x h r h' :
  method_to_dict limit x h = (r, h') -> h' = h.
Proof.
  unfold method_to_dict, bind.
  destruct (bound_method x "to_dict" h) as [[recv|e] h1] eqn:Eb;
    apply bound_method_pure in Eb; subst h1; [|intros H; now inversion H].
  apply to_dict_pure.
Qed.

Lemma save_to_file_store toml_dumps limit self filename fs h r h' fs' :
  save_to_file toml_dumps limit self filename fs h = (r, h', fs') -> h' = h.
Proof.
  unfold save_to_file.
  destruct (method_to_dict limit (VNode self) h) as [[d|e] h1] eqn:Ed;
    apply method_to_dict_pure in Ed; subst h1; [|intros H; now inversion H].
  destruct (open_path filename); [|intros H; now inversion H].
  destruct (propagate (toml_dumps d)); intros H; now inversion H.
Qed.

(** X1: [get], [to_dict], [to_json], [save_to_file] and [save] never change
    an object: whatever they return or raise, the store after the call is
    the store before it. *)
Theorem X1_readers_leave_the_store
    (toml_dumps json_dumps : dict -> codec string) (limit : nat) (self : loc)
    (h : heap) :
  (forall key r h', get self key h = (r, h') -> h' = h)
  /\ (forall r h', to_dict limit self h = (r, h') -> h' = h)
  /\ (forall r h', to_json json_dumps limit self h = (r, h') -> h' = h)
  /\ (forall filename fs r h' fs',
        save_to_file toml_dumps limit self filename fs h = (r, h', fs') ->
        h' = h)
  /\ (forall fs r h' fs',
        save toml_dumps limit self fs h = (r, h', fs') -> h' = h).
Proof.
  split; [|split; [|split; [|split]]].
  - intros key r h'. apply get_pure.
  - intros r h'. apply to_dict_pure.
  - intros r h'. unfold to_json, bind.
    destruct (method_to_dict limit (VNode self) h) as [[d|e] h1] eqn:Ed;
      apply method_to_dict_pure in Ed; subst h1; intros H; now inversion H.
  - intros filename fs r h' fs'. apply save_to_file_store.
  - intros fs r h' fs'. unfold save.
    destruct (getattr (VNode self) "__file__" h) as [[o|e] h1] eqn:Eg;
      pose proof (getattr_pure _ _ _ _ _ Eg); subst h1;
      [|intros H; now inversion H].
    destruct (is_None o); [intros H; now inversion H|].
    destruct (bound_method (VNode self) "save_to_file" h) as [[recv|e] h1] eqn:Eb;
      apply bound_method_pure in Eb; subst h1; [|intros H; now inversion H].
    rewrite Eg. apply save_to_file_store.
Qed.

(** ** [save_to_file] *)



Lemma X1_readers_leave_the_store_witness :
  let h := [[("__file__", VStr "a.toml"); ("t", VNode 1)]; [("k", VInt 1)]] in
  let dumps := fun _ : dict => Done "text" in
  get 0 "t" h = (Ok (VAttrs 1), h)
  /\ snd (get 0 "t" h) = h
  /\ snd (to_dict 2 0 h) = h
  /\ snd (to_json dumps 2 0 h) = h
  /\ snd (fst (save dumps 2 0 ∅ h)) = h.
Proof.
  intros h dumps.
  destruct (X1_readers_leave_the_store dumps dumps 2 0 h)
    as (Hget & Hdict & Hjson & _ & Hsave).
  split; [reflexivity|]. split; [|split; [|split]].
  - exact (Hget "t" _ _ eq_refl).
  - exact (Hdict _ _ eq_refl).
  - exact (Hjson _ _ eq_refl).
  - exact (Hsave ∅ _ _ _ eq_refl).
Defined.

(** ** [save] *)

(** The exceptions an export can raise. *)
Lemma getattr_error x k h e h' :
  getattr x k h = (Raise e, h') -> e = AttributeError \/ e = OutsideModel.
Proof.
  destruct x; unfold getattr, builtin_names, bind, read_attrs, ret, raise;
    split_tests; intros H; inversion H; auto.
Qed.

Lemma bound_method_error x name h e h' :
  bound_method x name h = (Raise e, h') ->
  e = AttributeError \/ e = OutsideModel \/ e = TypeError.
Proof.
  unfold bound_method, bind, raise, ret.
  destruct (getattr x name h) as [[f|e0] h1] eqn:Eg.
  - destruct f; try (intros H; inversion H; solve [auto]).
    destruct f; try (intros H; inversion H; solve [auto]).
    destruct (_ && _); intros H1; inversion H1; auto.
  - intros H; inversion H; subst.
    destruct (getattr_error _ _ _ _ _ Eg); auto.
Qed.

Lemma to_dict_items_error (rec : loc -> M dict) :
  (forall l h e h', rec l h = (Raise e, h') ->
     e = RecursionError \/ e = AttributeError \/ e = OutsideModel
     \/ e = TypeError) ->
  forall kvs data h e h',
    to_dict_items rec kvs data h = (Raise e, h') ->
    e = RecursionError \/ e = AttributeError \/ e = OutsideModel
    \/ e = TypeError.
Proof.
  intros Hrec. induction kvs as [|[key x] rest IH]; intros data h e h'; simpl.
  - discriminate.
  - destruct (String.eqb key "__file__" || is_None x); [apply IH|].
    destruct (isinstance_TomlConfig x); [|apply IH].
    unfold bind at 1.
    destruct (bound_method x "to_dict" h) as [[recv|e0] h1] eqn:Eb.
    + unfold bind.
      destruct (rec recv h1) as [[sub|e1] h2] eqn:Er; [apply IH|].
      intros H; inversion H; subst. eapply Hrec; eauto.
    + intros H; inversion H; subst.
      destruct (bound_method_error _ _ _ _ _ Eb) as [?|[?|?]]; auto.
Qed.

Lemma to_dict_error limit : forall self h e h',
  to_dict limit self h = (Raise e, h') ->
  e = RecursionError \/ e = AttributeError \/ e = OutsideModel
  \/ e = TypeError.
Proof.
  induction limit as [|limit IH]; intros self h e h'; simpl.
  - intros H; inversion H; auto.
  - unfold bind, read_attrs. now apply to_dict_items_error.
Qed.

(** X3: [save] raises its [ValueError] ("Original filename not available
    ...") exactly when the node's attribute [__file__] is bound to [None]; a
    node that has no attribute [__file__] does not get this error.  When
    [__file__] is bound to a string and the node has no entry named
    [save_to_file], [save] is [save_to_file] with that string. *)
Theorem X3_save (toml_dumps : dict -> codec string) (limit : nat)
    (self : loc) (fs : files) (h : heap) :
  ((exists h' fs',
      save toml_dumps limit self fs h
      = (Raise (ValueError
           "Original filename not available. Use save_to_file() instead."),
         h', fs'))
   <-> Dict.get "__file__" (attrs_of h self) = Some VNone)
  /\ (Dict.get "__file__" (attrs_of h self) = Some VNone ->
      save toml_dumps limit self fs h
      = (Raise (ValueError
           "Original filename not available. Use save_to_file() instead."),
         h, fs))
  /\ (forall p,
        Dict.get "__file__" (attrs_of h self) = Some (VStr p) ->
        Dict.get "save_to_file" (attrs_of h self) = None ->
        save toml_dumps limit self fs h
        = save_to_file toml_dumps limit self (VStr p) fs h).
Proof.
  assert (Hnone : Dict.get "__file__" (attrs_of h self) = Some VNone ->
    save toml_dumps limit self fs h
    = (Raise (ValueError
         "Original filename not available. Use save_to_file() instead."),
       h, fs)).
  { intros Ho. unfold save.
    now rewrite (getattr_node_bound self "__file__" _ h eq_refl Ho). }
  split; [|split; [exact Hnone|]].
  - split; [|intros Ho; rewrite (Hnone Ho); eauto].
    intros (h' & fs' & Hrun). unfold save in Hrun.
    destruct (Dict.get "__file__" (attrs_of h self)) as [o|] eqn:Ho.
    2:{ rewrite (getattr_node_absent _ _ _ Ho no_class_origin) in Hrun.
        discriminate. }
    rewrite (getattr_node_bound self "__file__" _ h eq_refl Ho) in Hrun.
    destruct o; try reflexivity; simpl in Hrun; exfalso.
    all: destruct (bound_method (VNode self) "save_to_file" h)
           as [[recv|e] h1] eqn:Eb;
         [|inversion Hrun; subst;
           destruct (bound_method_error _ _ _ _ _ Eb) as [?|[?|?]];
           discriminate].
    all: pose proof (bound_method_pure _ _ _ _ _ Eb); subst h1.
    all: rewrite (getattr_node_bound self "__file__" _ h eq_refl Ho) in Hrun.
    all: unfold save_to_file in Hrun.
    all: destruct (method_to_dict limit (VNode recv) h) as [[d|e] h1] eqn:Ed.
    all: try (inversion Hrun; subst; unfold method_to_dict, bind in Ed;
         destruct (bound_method (VNode recv) "to_dict" h) as [[r2|e2] h2] eqn:Eb2;
         [ destruct (to_dict_error _ _ _ _ _ Ed) as [?|[?|[?|?]]]; discriminate
         | inversion Ed; subst;
           destruct (bound_method_error _ _ _ _ _ Eb2) as [?|[?|?]];
           discriminate ]).
    all: unfold open_path in Hrun.
    all: try discriminate.
    destruct (String.eqb s ""); [discriminate|].
    destruct (toml_dumps d); simpl in Hrun; discriminate.
  - intros p Ho Hs. unfold save.
    rewrite (getattr_node_bound self "__file__" _ h eq_refl Ho).
    simpl is_None. cbv iota.
    rewrite bound_method_own by (auto; reflexivity).
    now rewrite (getattr_node_bound self "__file__" _ h eq_refl Ho).
Qed.

Lemma X3_save_witness :
  let dumps := fun _ : dict => Done "k = 1" in
  let h := [[("k", VInt 1); ("__file__", VNone)];
            [("k", VInt 1); ("__file__", VStr "a.toml")]] in
  Dict.get "__file__" (attrs_of h 0) = Some VNone
  /\ save dumps 1 0 ∅ h
     = (Raise (ValueError
          "Original filename not available. Use save_to_file() instead."),
        h, ∅)
  /\ save dumps 1 1 ∅ h = (Ok tt, h, {[ "a.toml" := "k = 1" ]}).
Proof.
  intros dumps h.
  destruct (X3_save dumps 1 0 ∅ h) as (_ & Hnone & _).
  destruct (X3_save dumps 1 1 ∅ h) as (_ & _ & Hstr).
  split; [reflexivity|]. split; [exact (Hnone eq_refl)|].
  rewrite (Hstr "a.toml" eq_refl eq_refl). reflexivity.
Defined.

(** ** Loading, importing and exporting again *)

Lemma TomlConfig_with_filename limit data p h :
  p <> "" ->
  TomlConfig limit data (Some p) h
  = match TomlConfig limit data None h with
    | (Ok root, h') =>
        (Ok root, <[root := Dict.set "__file__" (VStr p) (attrs_of h' root)]> h')
    | (Raise e, h') => (Raise e, h')
    end.
Proof.
  intros Hp. apply String.eqb_neq in Hp.
  destruct limit as [|limit]; [reflexivity|].
  rewrite !TomlConfig_S. unfold bind, alloc.
  destruct (items data (h ++ [[]])) as [[kvs|e] hi]; [|reflexivity].
  destruct (init_items _ (length h) kvs hi) as [[u|e] h2]; [|reflexivity].
  simpl. rewrite Hp. reflexivity.
Qed.


Lemma TomlConfig_nested_exports limit sub h :
  plain (VDict sub) = true -> depth (VDict sub) <= limit ->
  exists h',
    TomlConfig limit (VDict sub) None h = (Ok (length h), h')
    /\ length h < length h'
    /\ (forall l, l < length h -> h' !! l = h !! l)
    /\ exports (length h) (length h') h' (VNode (length h)) sub.
Proof.
  intros Hps Hds. rewrite plain_VDict in Hps.
  apply andb_true_iff in Hps as [Hps Hpi].
  apply andb_true_iff in Hps as [Hto Hn].
  destruct (TomlConfig_exports limit sub h Hn Hpi Hds)
    as (h' & Hrun & Hlen & Hpre & Hexp & Hkeys).
  exists h'. repeat split; auto.
  intros limit' hx Hd' Hag. unfold method_to_dict, bind.
  assert (Ha : attrs_of hx (length h) = attrs_of h' (length h)).
  { unfold attrs_of. now rewrite Hag by lia. }
  rewrite bound_method_own; [now apply Hexp|reflexivity|].
  rewrite Ha. apply DictFacts.get_None_keys. rewrite Hkeys.
  unfold not_in in Hto. apply negb_true_iff in Hto. now apply mem_false.
Qed.

(** The root that the constructor builds: its instance dictionary has an
    entry for each entry of the mapping, in order. *)
Lemma TomlConfig_mirrors limit kvs h :
  nodup_keys kvs = true -> plain_items kvs = true ->
  depth (VDict kvs) <= limit ->
  exists hfin got,
    TomlConfig limit (VDict kvs) None h = (Ok (length h), hfin)
    /\ length h < length hfin
    /\ (forall l, l < length h -> hfin !! l = h !! l)
    /\ attrs_of hfin (length h) = got
    /\ Dict.keys got = Dict.keys kvs
    /\ Forall2 (entry_mirrors (S (length h)) (length hfin) hfin) kvs got.
Proof.
  intros Hnd Hp Hd. rewrite depth_VDict in Hd.
  destruct limit as [|limit]; [lia|].
  rewrite TomlConfig_unfold.
  destruct (init_items_mirrors limit (TomlConfig_nested_exports limit)
              (length h) kvs (h ++ [[]]))
    as (hfin & got & Hrun & Hlen & Hcells & Hattrs & Hm); auto; try lia.
  { rewrite length_app. simpl. lia. }
  rewrite length_app in Hlen, Hcells, Hm. simpl in Hlen, Hcells, Hm.
  assert (Hkeys : Dict.keys got = Dict.keys kvs)
    by (eapply entry_mirrors_keys; eauto).
  exists hfin, got. rewrite Hrun. repeat split; auto.
  - lia.
  - intros l Hl. rewrite Hcells by lia. now apply lookup_app_l.
  - rewrite Hattrs, attrs_of_new. apply assign_all_fresh. simpl.
    rewrite Hkeys. now apply nodup_keys_NoDup.
  - replace (S (length h)) with (length h + 1) by lia. exact Hm.
Qed.


Lemma load_unfold toml_loads limit p fs h :
  p <> "" ->
  load toml_loads limit p fs h
  = match propagate (toml_loads (default "" (fs !! p))) with
    | Raise e => (Raise e, h, touch p fs)
    | Ok data =>
        let (r, h') := TomlConfig limit data (Some p) h in
        (r, h', touch p fs)
    end.
Proof.
  intros Hp. unfold load, open_path.
  apply String.eqb_neq in Hp. rewrite Hp. now rewrite touch_lookup.
Qed.

Lemma not_in_keys_get k (d : dict) :
  not_in (Dict.keys d) k = true -> Dict.get k d = None.
Proof.
  unfold not_in. rewrite negb_true_iff, mem_false.
  apply DictFacts.get_None_keys.
Qed.






(** ** [from_json] and [to_json] *)

Lemma from_json_unfold json_load limit path fs h :
  path <> "" ->
  from_json json_load limit path fs h
  = match fs !! path with
    | None => (Raise FileNotFoundError, h)
    | Some text =>
        match propagate (json_load text) with
        | Raise e => (Raise e, h)
        | Ok data => TomlConfig limit data None h
        end
    end.
Proof.
  intros Hp. unfold from_json, open_path.
  apply String.eqb_neq in Hp. now rewrite Hp.
Qed.

(** X6: [from_json] on a path that is not empty.  A missing file raises
    [FileNotFoundError] and a text the JSON codec rejects raises the codec's
    error, both without touching any object.  A text whose top level is not
    an object (a list, a number, a string, [null]) raises [AttributeError]
    from the constructor.  A text that decodes to a plain mapping [M] gives
    a new root whose export is [M]; the root has no origin, so [save] on it
    raises [AttributeError], and every object that existed before is as it
    was. *)
Theorem X6_from_json (json_load : string -> codec value)
    (toml_dumps : dict -> codec string) (limit limit' : nat) (path : string)
    (fs : files) (h : heap) :
  path <> "" ->
  (fs !! path = None ->
     from_json json_load limit path fs h = (Raise FileNotFoundError, h))
  /\ (forall text msg,
        fs !! path = Some text -> json_load text = Failed msg ->
        from_json json_load limit path fs h = (Raise (CodecError msg), h))
  /\ (forall text data,
        fs !! path = Some text -> json_load text = Done data ->
        not_a_mapping data = true -> 1 <= limit ->
        exists h',
          from_json json_load limit path fs h = (Raise AttributeError, h')
          /\ forall l, l < length h -> h' !! l = h !! l)
  /\ (forall text M,
        fs !! path = Some text -> json_load text = Done (VDict M) ->
        plain_mapping M = true ->
        depth (VDict M) <= limit -> depth (VDict M) <= limit' ->
        exists root h',
          from_json json_load limit path fs h = (Ok root, h')
          /\ to_dict limit' root h' = (Ok M, h')
          /\ (forall fs2,
                save toml_dumps limit' root fs2 h'
                = (Raise AttributeError, h', fs2))
          /\ forall l, l < length h -> h' !! l = h !! l).
Proof.
  intros Hp. pose proof (from_json_unfold json_load limit path fs h Hp) as Hu.
  split; [|split; [|split]].
  - intros Hn. now rewrite Hu, Hn.
  - intros text msg Hf Hm. now rewrite Hu, Hf, Hm.
  - intros text data Hf Hdone Hnot Hl. rewrite Hu, Hf, Hdone. simpl.
    destruct limit as [|limit]; [lia|].
    exists (h ++ [[]]). split.
    + rewrite TomlConfig_S. unfold bind, alloc.
      destruct data; try discriminate; reflexivity.
    + intros l Hlt. now apply lookup_app_l.
  - intros text M Hf Hdone Hplain Hd Hd'. rewrite Hu, Hf, Hdone. simpl.
    unfold plain_mapping in Hplain. rewrite plain_VDict in Hplain.
    apply andb_true_iff in Hplain as [Hplain Hi].
    apply andb_true_iff in Hplain as [_ Hn].
    destruct (TomlConfig_exports limit M h Hn Hi Hd)
      as (h' & Hrun & Hlen & Hpre & Hexp & Hkeys).
    exists (length h), h'. split; [exact Hrun|]. split; [|split].
    + apply Hexp; auto. intros l _. reflexivity.
    + intros fs2. apply save_without_origin.
      apply DictFacts.get_None_keys. rewrite Hkeys. clear - Hi.
      induction M as [|[k x] rest IH]; simpl in *; [tauto|].
      apply andb_true_iff in Hi as [Hi Hr].
      apply andb_true_iff in Hi as [Hi _].
      apply andb_true_iff in Hi as [Hk _].
      apply negb_true_iff, String.eqb_neq in Hk.
      intros [Heq|Hin]; [congruence|]. now apply IH.
    + exact Hpre.
Qed.

Lemma X6_from_json_witness :
  let jload := fun s : string =>
    if String.eqb s "{}" then Done (VDict [("k", VList [VInt 1; VNone])])
    else if String.eqb s "[1]" then Done (VList [VInt 1])
    else Failed "Expecting value" in
  let dumps := fun _ : dict => Done "" in
  let fs : files := {[ "c.json" := "{}"; "l.json" := "[1]"; "x.json" := "?" ]} in
  ("c.json" : string) <> ""
  /\ from_json jload 1 "none.json" fs [] = (Raise FileNotFoundError, [])
  /\ from_json jload 1 "x.json" fs [] = (Raise (CodecError "Expecting value"), [])
  /\ (exists h', from_json jload 1 "l.json" fs [] = (Raise AttributeError, h'))
  /\ exists root h',
       from_json jload 1 "c.json" fs [] = (Ok root, h')
       /\ to_dict 1 root h' = (Ok [("k", VList [VInt 1; VNone])], h')
       /\ save dumps 1 root fs h' = (Raise AttributeError, h', fs).
Proof.
  intros jload dumps fs.
  assert (Hp : ("c.json" : string) <> "") by discriminate.
  split; [exact Hp|]. split; [|split; [|split]].
  - assert (Hq : ("none.json" : string) <> "") by discriminate.
    destruct (X6_from_json jload dumps 1 1 "none.json" fs [] Hq) as (Hmiss & _).
    apply Hmiss. reflexivity.
  - assert (Hq : ("x.json" : string) <> "") by discriminate.
    destruct (X6_from_json jload dumps 1 1 "x.json" fs [] Hq) as (_ & Hbad & _).
    assert (Hf : fs !! "x.json" = Some "?") by reflexivity.
    exact (Hbad "?" "Expecting value" Hf eq_refl).
  - assert (Hq : ("l.json" : string) <> "") by discriminate.
    destruct (X6_from_json jload dumps 1 1 "l.json" fs [] Hq)
      as (_ & _ & Hlist & _).
    assert (Hf : fs !! "l.json" = Some "[1]") by reflexivity.
    destruct (Hlist "[1]" (VList [VInt 1]) Hf eq_refl eq_refl (le_n 1))
      as (h' & Hrun & _).
    now exists h'.
  - destruct (X6_from_json jload dumps 1 1 "c.json" fs [] Hp)
      as (_ & _ & _ & Hmap).
    assert (Hf : fs !! "c.json" = Some "{}") by reflexivity.
    assert (Hd : depth (VDict [("k", VList [VInt 1; VNone])]) <= 1)
      by (simpl; lia).
    destruct (Hmap "{}" [("k", VList [VInt 1; VNone])] Hf eq_refl eq_refl Hd Hd)
      as (root & h' & Hrun & Hexp & Hsave & _).
    exists root, h'. split; [exact Hrun|]. split; [exact Hexp|]. apply Hsave.
Defined.

(** X7: the JSON round trip.  When a node exports the plain mapping [d], the
    JSON codec encodes [d] as [s] and decodes [s] as [d] again, then
    [to_json] returns [s], and [from_json] on a file that holds [s] returns
    a new root whose export is [d]. *)
Theorem X7_to_json_from_json (json_dumps : dict -> codec string)
    (json_load : string -> codec value) (limit : nat) (self : loc)
    (path : string) (fs : files) (h : heap) (d : dict) (s : string) :
  path <> "" ->
  method_to_dict limit (VNode self) h = (Ok d, h) ->
  json_dumps d = Done s -> json_load s = Done (VDict d) ->
  plain_mapping d = true -> depth (VDict d) <= limit ->
  fs !! path = Some s ->
  to_json json_dumps limit self h = (Ok s, h)
  /\ exists root h',
       from_json json_load limit path fs h = (Ok root, h')
       /\ to_dict limit root h' = (Ok d, h')
       /\ forall l, l < length h -> h' !! l = h !! l.
Proof.
  intros Hp Hexp Hdump Hback Hplain Hd Hfs. split.
  - unfold to_json, bind. now rewrite Hexp, Hdump.
  - rewrite (from_json_unfold _ _ _ _ _ Hp), Hfs, Hback. simpl.
    unfold plain_mapping in Hplain. rewrite plain_VDict in Hplain.
    apply andb_true_iff in Hplain as [Hplain Hi].
    apply andb_true_iff in Hplain as [_ Hn].
    destruct (TomlConfig_exports limit d h Hn Hi Hd)
      as (h' & Hrun & Hlen & Hpre & Hexp' & _).
    exists (length h), h'. split; [exact Hrun|]. split; [|exact Hpre].
    apply Hexp'; auto. intros l _. reflexivity.
Qed.

Lemma X7_to_json_from_json_witness :
  let d := [("t", VDict [("k", VInt 1)])] in
  let jdumps := fun m : dict =>
    match m with
    | [("t", VDict [("k", VInt 1)])] => Done "{t: {k: 1}}"
    | _ => Failed "not serializable"
    end in
  let jload := fun s : string =>
    if String.eqb s "{t: {k: 1}}" then Done (VDict d)
    else Failed "Expecting value" in
  let h := [[("t", VNode 1); ("n", VNone)]; [("k", VInt 1)]] in
  let fs : files := {[ "c.json" := "{t: {k: 1}}" ]} in
  ("c.json" : string) <> ""
  /\ method_to_dict 2 (VNode 0) h = (Ok d, h)
  /\ to_json jdumps 2 0 h = (Ok "{t: {k: 1}}", h)
  /\ exists root h',
       from_json jload 2 "c.json" fs h = (Ok root, h')
       /\ to_dict 2 root h' = (Ok d, h').
Proof.
  intros d jdumps jload h fs.
  assert (Hp : ("c.json" : string) <> "") by discriminate.
  assert (Hd : depth (VDict d) <= 2) by (simpl; lia).
  assert (Hfs : fs !! "c.json" = Some "{t: {k: 1}}") by reflexivity.
  destruct (X7_to_json_from_json jdumps jload 2 0 "c.json" fs h d
              "{t: {k: 1}}" Hp eq_refl eq_refl eq_refl eq_refl Hd Hfs)
    as (Hjson & root & h' & Hrun & Hexp & _).
  split; [exact Hp|]. split; [reflexivity|]. split; [exact Hjson|].
  exists root, h'. auto.
Defined.

(** ** [add_items] *)

Arguments bound_method : simpl never.
Arguments add_item : simpl never.

Lemma add_items_app self (xs ys : list value) : forall h,
  add_items self (xs ++ ys) h
  = match add_items self xs h with
    | (Ok _, h1) => add_items self ys h1
    | (Raise e, h1) => (Raise e, h1)
    end.
Proof.
  induction xs as [|x xs IH]; intros h; simpl.
  - reflexivity.
  - unfold bind at 1 3.
    destruct ((let* kvs := items x in add_items_of self kvs) h)
      as [[u|e] h1]; [apply IH|reflexivity].
Qed.




Lemma add_item_loop_single self k v h :
  self < length h -> mem k data_descriptors = false ->
  add_item_loop (VNode self) [k] v h
  = (Ok tt, <[self := Dict.set k v (attrs_of h self)]> h).
Proof.
  intros Hlt Hd.
  set (h' := <[self := Dict.set k v (attrs_of h self)]> h).
  assert (Hget : getattr (VNode self) k h' = (Ok v, h')).
  { apply getattr_node_bound; auto. unfold h'.
    rewrite attrs_of_write_same by auto. apply DictFacts.get_set_same. }
  cbn [add_item_loop]. unfold bind at 1. rewrite hasattr_node.
  unfold bind at 1.
  assert (Hs : forall b : bool,
             (if negb b then setattr (VNode self) k v
              else setattr (VNode self) k v) h = (Ok tt, h')).
  { intros []; simpl; now apply setattr_node. }
  rewrite Hs. unfold bind. now rewrite Hget.
Qed.

Lemma bound_method_hidden self name x h :
  mem name data_descriptors = false ->
  Dict.get name (attrs_of h self) = Some x -> not_callable x = true ->
  bound_method (VNode self) name h = (Raise TypeError, h).
Proof.
  intros Hd Hx Hc. unfold bound_method, bind.
  rewrite (getattr_node_bound _ _ _ _ Hd Hx).
  destruct x; try reflexivity; discriminate.
Qed.

(** X9: an entry named [add_item] hides the method that [add_items] calls.
    On a node that binds [add_item] to a value that cannot be called, a
    batch whose first mapping has an entry raises [TypeError] and changes
    nothing.  And a batch that itself binds such an entry stops right after
    it: the entry is bound, and the next mapping with an entry raises
    [TypeError]. *)
Theorem X9_add_items_hidden_method (self : loc) (h : heap) (x : value) :
  not_callable x = true ->
  (Dict.get "add_item" (attrs_of h self) = Some x ->
   forall key v rest more,
     add_items self (VDict ((key, v) :: rest) :: more) h
     = (Raise TypeError, h))
  /\ (Dict.get "add_item" (attrs_of h self) = None -> self < length h ->
      forall key v rest more,
        add_items self (VDict [("add_item", x)]
                        :: VDict ((key, v) :: rest) :: more) h
        = (Raise TypeError,
           <[self := Dict.set "add_item" x (attrs_of h self)]> h)).
Proof.
  intros Hc.
  assert (Hhid : forall h0, Dict.get "add_item" (attrs_of h0 self) = Some x ->
    forall key v rest more,
      add_items self (VDict ((key, v) :: rest) :: more) h0
      = (Raise TypeError, h0)).
  { intros h0 Hx key v rest more. cbn [add_items].
    unfold bind, items, ret. cbn [add_items_of]. unfold bind, ret.
    now rewrite (bound_method_hidden self "add_item" x h0 eq_refl Hx Hc). }
  split; [apply Hhid|].
  intros Hn Hlt key v rest more.
  change (VDict [("add_item", x)] :: VDict ((key, v) :: rest) :: more)
    with ([VDict [("add_item", x)]] ++ VDict ((key, v) :: rest) :: more).
  rewrite add_items_app.
  assert (Hfirst : add_items self [VDict [("add_item", x)]] h
    = (Ok tt, <[self := Dict.set "add_item" x (attrs_of h self)]> h)).
  { cbn [add_items]. unfold bind, items, ret.
    cbn [add_items_of]. unfold bind, ret.
    rewrite bound_method_own by (auto; reflexivity).
    unfold add_item. change (split_dot "add_item") with ["add_item"].
    now rewrite add_item_loop_single by (auto; reflexivity). }
  rewrite Hfirst. apply Hhid.
  rewrite attrs_of_write_same by auto. apply DictFacts.get_set_same.
Qed.

Lemma X9_add_items_hidden_method_witness :
  not_callable (VInt 1) = true
  /\ add_items 0 [VDict [("x", VInt 2)]] [[("add_item", VInt 1)]]
     = (Raise TypeError, [[("add_item", VInt 1)]])
  /\ add_items 0 [VDict [("add_item", VInt 1)]; VDict [("x", VInt 2)]] [[]]
     = (Raise TypeError, [[("add_item", VInt 1)]]).
Proof.
  split; [reflexivity|].
  destruct (X9_add_items_hidden_method 0 [[("add_item", VInt 1)]] (VInt 1) eq_refl)
    as [Hhid _].
  destruct (X9_add_items_hidden_method 0 [[]] (VInt 1) eq_refl) as [_ Hnew].
  split.
  - exact (Hhid eq_refl "x" (VInt 2) [] []).
  - assert (Hlt : 0 < length ([[]] : heap)) by (simpl; lia).
    exact (Hnew eq_refl Hlt "x" (VInt 2) [] []).
Defined.

(** ** One-segment keys: bind, look up, rebind, unbind *)

Lemma dict_set_set k v w (d : dict) :
  Dict.set k w (Dict.set k v d) = Dict.set k w d.
Proof.
  induction d as [|[k' v'] d IH]; simpl.
  - now rewrite String.eqb_refl.
  - destruct (String.eqb k k') eqn:E; simpl; rewrite E; [reflexivity|].
    now rewrite IH.
Qed.

Lemma dict_del_set_absent k v (d : dict) :
  Dict.get k d = None -> Dict.del k (Dict.set k v d) = d.
Proof.
  induction d as [|[k' v'] d IH]; simpl.
  - now rewrite String.eqb_refl.
  - destruct (String.eqb k k') eqn:E; [discriminate|]. simpl. rewrite E.
    intros H. now rewrite IH.
Qed.

Lemma insert_attrs_id (h : heap) l : <[l := attrs_of h l]> h = h.
Proof.
  unfold attrs_of. destruct (h !! l) eqn:E.
  - now apply list_insert_id.
  - apply list_insert_ge. now apply lookup_ge_None.
Qed.

(** X10: on an allocated node, [add_item] with a key that has no dot and is
    not [__dict__], [__class__] or [__weakref__] always returns normally and
    changes that one entry of that one node.  Afterwards [get] returns the
    value (for a node, its instance dictionary); adding again with another
    value gives the store that adding only the second value gives; and when
    the key was not bound before, [remove_item] restores the store
    exactly. *)
Theorem X10_add_item_one_segment (self : loc) (key : string) (v : value)
    (h : heap) :
  self < length h -> split_dot key = [key] ->
  mem key data_descriptors = false ->
  let h1 := <[self := Dict.set key v (attrs_of h self)]> h in
  add_item self key v h = (Ok tt, h1)
  /\ get self key h1
     = (Ok (match v with VNode c => VAttrs c | _ => v end), h1)
  /\ (forall k', k' <> key ->
        Dict.get k' (attrs_of h1 self) = Dict.get k' (attrs_of h self))
  /\ (forall l, l <> self -> attrs_of h1 l = attrs_of h l)
  /\ (forall w, add_item self key w h1 = add_item self key w h)
  /\ (Dict.get key (attrs_of h self) = None ->
      remove_item self key h1 = (Ok tt, h)).
Proof.
  intros Hlt Hsplit Hd h1.
  assert (Hattrs : attrs_of h1 self = Dict.set key v (attrs_of h self)).
  { unfold h1. now rewrite attrs_of_write_same. }
  assert (Hlen : self < length h1) by (unfold h1; now rewrite length_insert).
  assert (Hadd : forall w h0, self < length h0 ->
    add_item self key w h0
    = (Ok tt, <[self := Dict.set key w (attrs_of h0 self)]> h0)).
  { intros w h0 H0. unfold add_item. rewrite Hsplit.
    now apply add_item_loop_single. }
  split; [now apply Hadd|]. split; [|split; [|split; [|split]]].
  - apply get_bound; auto. rewrite Hattrs. apply DictFacts.get_set_same.
  - intros k' Hk'. rewrite Hattrs. apply DictFacts.get_set_other. congruence.
  - intros l Hl. unfold h1. apply attrs_of_write_other. congruence.
  - intros w. rewrite !Hadd by auto. rewrite Hattrs, dict_set_set.
    unfold h1. now rewrite list_insert_insert_eq.
  - intros Hn. unfold remove_item. rewrite Hsplit.
    change [key] with ([] ++ [key]).
    rewrite (remove_item_loop_bound key [] self h1 key self); auto.
    + rewrite Hattrs, dict_del_set_absent by auto.
      unfold h1. rewrite list_insert_insert_eq. now rewrite insert_attrs_id.
    + unfold Dict.has. rewrite Hattrs. now rewrite DictFacts.get_set_same.
Qed.

Lemma X10_add_item_one_segment_witness :
  let h := [[("a", VInt 1)]; []] in
  0 < length h /\ split_dot "t" = ["t"]
  /\ add_item 0 "t" (VNode 1) h = (Ok tt, [[("a", VInt 1); ("t", VNode 1)]; []])
  /\ get 0 "t" [[("a", VInt 1); ("t", VNode 1)]; []]
     = (Ok (VAttrs 1), [[("a", VInt 1); ("t", VNode 1)]; []])
  /\ remove_item 0 "t" [[("a", VInt 1); ("t", VNode 1)]; []] = (Ok tt, h).
Proof.
  intros h.
  assert (Hlt : 0 < length h) by (simpl; lia).
  destruct (X10_add_item_one_segment 0 "t" (VNode 1) h Hlt eq_refl eq_refl)
    as (Hadd & Hget & _ & _ & _ & Hrem).
  split; [exact Hlt|]. split; [reflexivity|].
  split; [exact Hadd|]. split; [exact Hget|]. exact (Hrem eq_refl).
Defined.

(** ** Removing twice *)

Lemma attrs_of_write h l l' d :
  attrs_of (<[l := d]> h) l'
  = if Nat.eqb l l' && Nat.ltb l (length h) then d else attrs_of h l'.
Proof.
  destruct (Nat.eqb l l') eqn:E; simpl.
  - apply Nat.eqb_eq in E. subst l'.
    destruct (Nat.ltb l (length h)) eqn:El.
    + apply Nat.ltb_lt in El. now apply attrs_of_write_same.
    + apply Nat.ltb_ge in El. now rewrite list_insert_ge.
  - apply Nat.eqb_neq in E. now apply attrs_of_write_other.
Qed.

Lemma descend_after_del h p k pre : forall cur parent,
  ~ In k pre -> descend h cur pre = Some parent ->
  descend (<[p := Dict.del k (attrs_of h p)]> h) cur pre = Some parent.
Proof.
  induction pre as [|k0 pre IH]; intros cur parent Hk Hd; simpl in *; auto.
  assert (Hsame : Dict.get k0 (attrs_of (<[p := Dict.del k (attrs_of h p)]> h) cur)
                  = Dict.get k0 (attrs_of h cur)).
  { rewrite attrs_of_write.
    destruct (Nat.eqb p cur && Nat.ltb p (length h)) eqn:E; auto.
    apply andb_true_iff in E as [E _]. apply Nat.eqb_eq in E. subst cur.
    apply DictFacts.get_del_other. intros ->. tauto. }
  rewrite Hsame.
  destruct (Dict.get k0 (attrs_of h cur)) as [[]|]; try discriminate.
  apply IH; auto.
Qed.

(** X11: removing is not idempotent.  Let the segments before the last lead
    through sub-nodes to a node that binds the last segment, the last
    segment being no name of the class and not occurring among the segments
    before it.  Then [remove_item] returns normally; the tables on the path
    stay where they are; and after it [get] for the last segment on that
    node, and a second [remove_item] with the same dotted key, raise
    [KeyError]. *)
Theorem X11_remove_item_twice (self : loc) (key : string) (h : heap)
    (pre : list string) (k : string) (parent : loc) :
  split_dot key = pre ++ [k] ->
  forallb (not_in data_descriptors) pre = true ->
  descend h self pre = Some parent ->
  ~ In k pre -> mem k class_names = false ->
  NoDup (Dict.keys (attrs_of h parent)) ->
  Dict.has k (attrs_of h parent) = true ->
  exists h1,
    remove_item self key h = (Ok tt, h1)
    /\ descend h1 self pre = Some parent
    /\ get parent k h1 = (Raise (key_error k), h1)
    /\ remove_item self key h1 = (Raise (key_error key), h1).
Proof.
  intros Hsplit Hpre Hdesc Hnotin Hclass Hnd Hhas.
  pose proof (descriptor_is_class_name _ Hclass) as Hd.
  set (h1 := <[parent := Dict.del k (attrs_of h parent)]> h).
  assert (Hdesc1 : descend h1 self pre = Some parent)
    by now apply descend_after_del.
  assert (Hlt : parent < length h).
  { destruct (Nat.lt_ge_cases parent (length h)) as [|Hge]; auto.
    rewrite attrs_of_dangling in Hhas by auto. discriminate. }
  assert (Hgone : Dict.get k (attrs_of h1 parent) = None).
  { unfold h1. rewrite attrs_of_write_same by auto.
    now apply DictFacts.get_del_same. }
  exists h1. split; [|split; [exact Hdesc1|split]].
  - unfold remove_item. rewrite Hsplit. now apply remove_item_loop_bound.
  - now apply get_absent.
  - unfold remove_item. rewrite Hsplit.
    now apply remove_item_loop_absent with (parent := parent).
Qed.

Lemma X11_remove_item_twice_witness :
  let h := [[("a", VNode 1)]; [("b", VInt 1)]] in
  let h1 := [[("a", VNode 1)]; []] in
  split_dot "a.b" = ["a"] ++ ["b"]
  /\ remove_item 0 "a.b" h = (Ok tt, h1)
  /\ get 1 "b" h1 = (Raise (KeyError "Key 'b' does not exist."), h1)
  /\ remove_item 0 "a.b" h1
     = (Raise (KeyError "Key 'a.b' does not exist."), h1).
Proof.
  intros h h1.
  assert (Hnotin : ~ In "b" ["a"]) by (intros [H|[]]; discriminate).
  assert (Hnd : NoDup (Dict.keys (attrs_of h 1))) by apply NoDup_singleton.
  destruct (X11_remove_item_twice 0 "a.b" h ["a"] "b" 1 eq_refl eq_refl
              eq_refl Hnotin eq_refl Hnd eq_refl)
    as (h' & Hrem & _ & Hget & Hagain).
  assert (Hh : h' = h1) by (inversion Hrem; reflexivity).
  subst h'. split; [reflexivity|]. auto.
Defined.

(** ** The constructor, [load] and [from_json] build beside what exists *)

(** X12: the constructor, and with it [load] and [from_json], never touches
    an object that exists: whatever they are given and whether they return
    or raise, the store only grows and every object allocated before the
    call is as it was.  When they return, the new root is the first object
    allocated by the call.  The constructor raises nothing but
    [AttributeError] (data without [items], an entry it cannot bind),
    [RecursionError] or an error from inside the interpreter's objects. *)
Theorem X12_builders_touch_no_object
    (toml_loads json_load : string -> codec value) (limit : nat) (h : heap) :
  (forall data filename r h',
     TomlConfig limit data filename h = (r, h') ->
     length h <= length h'
     /\ (forall l, l < length h -> h' !! l = h !! l)
     /\ (forall root, r = Ok root -> root = length h /\ length h < length h')
     /\ (forall e, r = Raise e -> constructor_error e = true))
  /\ (forall p fs r h' fs',
        load toml_loads limit p fs h = (r, h', fs') ->
        length h <= length h'
        /\ (forall l, l < length h -> h' !! l = h !! l)
        /\ (forall root, r = Ok root -> root = length h /\ length h < length h'))
  /\ (forall p fs r h',
        from_json json_load limit p fs h = (r, h') ->
        length h <= length h'
        /\ (forall l, l < length h -> h' !! l = h !! l)
        /\ (forall root, r = Ok root -> root = length h /\ length h < length h')).
Proof.
  assert (Hc : forall data filename r h',
    TomlConfig limit data filename h = (r, h') ->
    length h <= length h'
    /\ (forall l, l < length h -> h' !! l = h !! l)
    /\ (forall root, r = Ok root -> root = length h /\ length h < length h')).
  { intros data filename r h' Hrun.
    destruct (TomlConfig_frame _ _ _ _ _ _ Hrun) as (H1 & H2 & _ & H4 & _).
    auto. }
  assert (Hfail : forall (e : exn) (r : outcome loc) (h' : heap),
    (Raise e, h) = (r, h') ->
    length h <= length h'
    /\ (forall l, l < length h -> h' !! l = h !! l)
    /\ (forall root, r = Ok root -> root = length h /\ length h < length h')).
  { intros e r h' H. inversion H; subst. repeat split; auto; discriminate. }
  split; [|split].
  - intros data filename r h' Hrun.
    destruct (TomlConfig_frame _ _ _ _ _ _ Hrun) as (H1 & H2 & H3 & H4 & _).
    auto.
  - intros p fs r h' fs'. unfold load.
    destruct (open_path (VStr p)) as [q|e];
      [|intros H; inversion H; subst; now apply (Hfail e)].
    destruct (touch q fs !! q) as [text|];
      [|intros H; inversion H; subst; now apply (Hfail FileNotFoundError)].
    destruct (propagate (toml_loads text)) as [data|e];
      [|intros H; inversion H; subst; now apply (Hfail e)].
    destruct (TomlConfig limit data (Some p) h) as [r0 h0] eqn:Hrun.
    intros H; inversion H; subst. eapply Hc; eauto.
  - intros p fs r h'. unfold from_json.
    destruct (open_path (VStr p)) as [q|e]; [|apply Hfail].
    destruct (fs !! q) as [text|]; [|apply Hfail].
    destruct (propagate (json_load text)) as [data|e]; [|apply Hfail].
    apply Hc.
Qed.

Lemma X12_builders_touch_no_object_witness :
  let h := [[("x", VInt 0)]] in
  let loads := fun _ : string => Done (VDict [("t", VDict [("k", VInt 1)])]) in
  (exists h',
     TomlConfig 2 (VDict [("t", VDict [("k", VInt 1)])]) None h = (Ok 1, h')
     /\ h' !! 0 = Some [("x", VInt 0)])
  /\ (exists e h',
        TomlConfig 1 (VDict [("t", VDict [("k", VInt 1)])]) None h
        = (Raise e, h')
        /\ constructor_error e = true
        /\ h' !! 0 = Some [("x", VInt 0)])
  /\ exists r h' fs',
       load loads 2 "a.toml" ∅ h = (r, h', fs')
       /\ h' !! 0 = Some [("x", VInt 0)].
Proof.
  intros h loads.
  destruct (X12_builders_touch_no_object loads loads 2 h) as (Hc & Hl & _).
  destruct (X12_builders_touch_no_object loads loads 1 h) as (Hc1 & _).
  split; [|split].
  - destruct (TomlConfig 2 (VDict [("t", VDict [("k", VInt 1)])]) None h)
      as [r h'] eqn:E.
    destruct (Hc _ _ _ _ E) as (_ & Hpre & _).
    assert (Hlt : 0 < length h) by (simpl; lia).
    specialize (Hpre 0 Hlt).
    vm_compute in E. inversion E; subst. eexists. split; [reflexivity|].
    exact Hpre.
  - destruct (TomlConfig 1 (VDict [("t", VDict [("k", VInt 1)])]) None h)
      as [r h'] eqn:E.
    destruct (Hc1 _ _ _ _ E) as (_ & Hpre & _ & He).
    assert (Hlt : 0 < length h) by (simpl; lia).
    specialize (Hpre 0 Hlt).
    vm_compute in E. inversion E; subst. eexists _, _.
    split; [reflexivity|]. split; [now apply He|exact Hpre].
  - destruct (load loads 2 "a.toml" ∅ h) as [[r h'] fs'] eqn:E.
    destruct (Hl _ _ _ _ _ E) as (_ & Hpre & _).
    assert (Hlt : 0 < length h) by (simpl; lia).
    exists r, h', fs'. split; [reflexivity|]. exact (Hpre 0 Hlt).
Defined.

(** ** One level of [to_dict] *)

Lemma export_of_node (rec : loc -> M dict) h key c got :
  export_of rec h (key, VNode c) got
  <-> exists recv sub,
        bound_method (VNode c) "to_dict" h = (Ok recv, h)
        /\ rec recv h = (Ok sub, h) /\ got = (key, VDict sub).
Proof.
  unfold export_of. destruct got as [k y]. simpl. split.
  - intros (-> & recv & sub & Hb & Hr & ->). eauto.
  - intros (recv & sub & Hb & Hr & Heq). inversion Heq; subst. eauto 6.
Qed.

Lemma export_of_value (rec : loc -> M dict) h key x got :
  isinstance_TomlConfig x = false ->
  export_of rec h (key, x) got <-> got = (key, x).
Proof.
  intros Hx. unfold export_of. destruct got as [k y]. simpl.
  destruct x; try discriminate; split;
    try (intros [-> ->]; reflexivity);
    intros Heq; inversion Heq; subst; auto.
Qed.

(** The loop of [to_dict] on a dictionary without a repeated key: it returns
    exactly when every call on a sub-node returns, and then it has appended,
    in order, one entry for each entry it does not skip. *)
Lemma to_dict_items_spec (rec : loc -> M dict) (h : heap) :
  (forall l r h', rec l h = (r, h') -> h' = h) ->
  forall kvs data r,
    NoDup (Dict.keys kvs) ->
    (forall k, In k (Dict.keys kvs) -> Dict.get k data = None) ->
    to_dict_items rec kvs data h = (Ok r, h)
    <-> exists out,
          Forall2 (export_of rec h) (List.filter exported kvs) out
          /\ r = data ++ out.
Proof.
  intros Hrec. induction kvs as [|[key x] rest IH]; intros data r Hnd Hfresh.
  - simpl. split.
    + intros H. inversion H; subst. exists []. split; [constructor|].
      now rewrite app_nil_r.
    + intros (out & HF & ->). inversion HF; subst. now rewrite app_nil_r.
  - inversion Hnd as [|? ? Hnotin Hnd']; subst.
    rewrite list_elem_of_In in Hnotin.
    assert (Hfresh0 : forall k, In k (Dict.keys rest) -> Dict.get k data = None).
    { intros k Hk. apply Hfresh. simpl. auto. }
    assert (Hfresh' : forall y k, In k (Dict.keys rest) ->
              Dict.get k (Dict.set key y data) = None).
    { intros y k Hk. rewrite DictFacts.get_set_other; auto.
      intros ->. tauto. }
    assert (Hset : forall y, Dict.set key y data = data ++ [(key, y)]).
    { intros y. apply DictFacts.set_absent. apply Hfresh. simpl. auto. }
    assert (Hstep : forall y,
      to_dict_items rec rest (Dict.set key y data) h = (Ok r, h)
      <-> exists out', Forall2 (export_of rec h) (List.filter exported rest) out'
                       /\ r = data ++ (key, y) :: out').
    { intros y. rewrite (IH (Dict.set key y data) r Hnd' (Hfresh' y)).
      rewrite Hset. split; intros (out' & HF & ->); exists out';
        (split; [exact HF|]); now rewrite <- app_assoc. }
    cbn [to_dict_items List.filter]. unfold exported at 1. cbn [fst snd].
    destruct (String.eqb key "__file__" || is_None x) eqn:Eskip; cbn [negb].
    { now apply IH. }
    destruct (isinstance_TomlConfig x) eqn:Et.
    + destruct x; try discriminate. split.
      * unfold bind at 1.
        destruct (bound_method (VNode l) "to_dict" h) as [[recv|e] h1] eqn:Eb;
          [|discriminate].
        pose proof (bound_method_pure _ _ _ _ _ Eb); subst h1.
        unfold bind at 1.
        destruct (rec recv h) as [[sub|e] h1] eqn:Er; [|discriminate].
        pose proof (Hrec _ _ _ Er); subst h1.
        intros H. apply Hstep in H as (out' & HF & ->).
        exists ((key, VDict sub) :: out'). split; [|reflexivity].
        constructor; [|exact HF]. apply export_of_node. eauto.
      * intros (out & HF & ->). inversion HF as [|? got ? out' Hg HF']; subst.
        apply export_of_node in Hg as (recv & sub & Hb & Hr & ->).
        unfold bind at 1. rewrite Hb. unfold bind at 1. rewrite Hr.
        apply Hstep. eauto.
    + rewrite Hstep. split.
      * intros (out' & HF & ->). exists ((key, x) :: out').
        split; [|reflexivity]. constructor; [|exact HF].
        now apply export_of_value.
      * intros (out & HF & ->). inversion HF as [|? got ? out' Hg HF']; subst.
        apply export_of_value in Hg; auto. subst got. eauto.
Qed.

Lemma export_of_keys (rec : loc -> M dict) h src :
  forall out, Forall2 (export_of rec h) src out -> Dict.keys out = Dict.keys src.
Proof.
  induction src as [|s src IH]; intros out HF; inversion HF; subst; simpl.
  - reflexivity.
  - f_equal; [|now apply IH].
    match goal with H : export_of _ _ _ _ |- _ => now destruct H end.
Qed.

(** X13: one level of the export.  On a node whose instance dictionary binds
    no key twice, [to_dict] returns exactly when the call [to_dict] returns
    on every sub-node that it does not skip, and what it returns has, in the
    order of the instance dictionary, one entry for each entry whose key is
    not [__file__] and whose value is not [None]: under the same key, the
    export of the sub-node for a sub-node and the value itself for anything
    else.  So the export binds no key to [None] or to a node, and has no key
    [__file__]. *)
Theorem X13_to_dict_one_level (limit : nat) (self : loc) (h : heap) (d : dict) :
  NoDup (Dict.keys (attrs_of h self)) ->
  (to_dict (S limit) self h = (Ok d, h)
   <-> Forall2 (export_of (to_dict limit) h)
         (List.filter exported (attrs_of h self)) d)
  /\ (to_dict (S limit) self h = (Ok d, h) ->
      Dict.keys d = Dict.keys (List.filter exported (attrs_of h self))
      /\ forall k v, In (k, v) d ->
           k <> "__file__" /\ v <> VNone /\ isinstance_TomlConfig v = false).
Proof.
  intros Hnd.
  assert (Hspec : to_dict (S limit) self h = (Ok d, h)
    <-> Forall2 (export_of (to_dict limit) h)
          (List.filter exported (attrs_of h self)) d).
  { rewrite to_dict_unfold.
    rewrite (to_dict_items_spec (to_dict limit) h
               (fun l => to_dict_pure limit l h)
               (attrs_of h self) [] d Hnd (fun _ _ => eq_refl)).
    simpl. split.
    - now intros (out & HF & ->).
    - intros HF. eauto. }
  split; [exact Hspec|]. intros Hrun. apply Hspec in Hrun.
  split; [eapply export_of_keys; eauto|].
  intros k v Hin. revert Hrun Hin. generalize (attrs_of h self). clear.
  intros src. revert d. induction src as [|[k0 x] src IH]; intros d HF Hin.
  - inversion HF; subst. destruct Hin.
  - cbn [List.filter] in HF. destruct (exported (k0, x)) eqn:Ee; [|eauto].
    inversion HF as [|? got ? out' Hg HF']; subst.
    destruct Hin as [Heq|Hin]; [|eauto]. subst got.
    unfold exported in Ee. cbn [fst snd] in Ee.
    apply negb_true_iff, orb_false_iff in Ee as [Ek En].
    apply String.eqb_neq in Ek.
    destruct Hg as [Hk Hv]. cbn [fst snd] in Hk, Hv. subst k.
    split; [exact Ek|].
    destruct x; try discriminate; subst;
      try (split; [discriminate|reflexivity]).
    destruct Hv as (recv & sub & _ & _ & ->). split; [discriminate|reflexivity].
Qed.

Lemma X13_to_dict_one_level_witness :
  let h := [[("a", VInt 1); ("gone", VNone); ("t", VNode 1);
             ("__file__", VStr "a.toml")];
            [("k", VStr "v")]] in
  NoDup (Dict.keys (attrs_of h 0))
  /\ to_dict 2 0 h = (Ok [("a", VInt 1); ("t", VDict [("k", VStr "v")])], h)
  /\ Dict.keys [("a", VInt 1); ("t", VDict [("k", VStr "v")])] = ["a"; "t"].
Proof.
  intros h.
  assert (Hnd : NoDup (Dict.keys (attrs_of h 0))).
  { apply nodup_keys_NoDup. reflexivity. }
  destruct (X13_to_dict_one_level 1 0 h
              [("a", VInt 1); ("t", VDict [("k", VStr "v")])] Hnd)
    as [[_ Hback] Hshape].
  split; [exact Hnd|].
  assert (Hrun : to_dict 2 0 h
                 = (Ok [("a", VInt 1); ("t", VDict [("k", VStr "v")])], h)).
  { apply Hback. simpl. constructor; [now split|].
    constructor; [|constructor]. split; [reflexivity|]. simpl.
    exists 1, [("k", VStr "v")]. repeat split; reflexivity. }
  split; [exact Hrun|]. destruct (Hshape Hrun) as [Hkeys _]. exact Hkeys.
Defined.

(** ** Exports that cannot succeed *)

(** When the loop of [to_dict] returns, the call [to_dict] has returned on
    every sub-node bound to a key other than [__file__]. *)
Lemma to_dict_items_calls (rec : loc -> M dict) (h : heap) :
  (forall l r h', rec l h = (r, h') -> h' = h) ->
  forall kvs data r h' k c,
    to_dict_items rec kvs data h = (Ok r, h') ->
    In (k, VNode c) kvs -> k <> "__file__" ->
    exists recv sub,
      bound_method (VNode c) "to_dict" h = (Ok recv, h)
      /\ rec recv h = (Ok sub, h).
Proof.
  intros Hrec. induction kvs as [|[key x] rest IH];
    intros data r h' k c Hrun Hin Hk; [destruct Hin|].
  cbn [to_dict_items] in Hrun.
  destruct (String.eqb key "__file__" || is_None x) eqn:Eskip.
  { destruct Hin as [Heq|Hin]; [|eauto].
    inversion Heq; subst. apply String.eqb_neq in Hk.
    rewrite Hk in Eskip. discriminate. }
  destruct (isinstance_TomlConfig x) eqn:Et.
  - unfold bind at 1 in Hrun.
    destruct (bound_method x "to_dict" h) as [[recv|e] h1] eqn:Eb;
      [|discriminate].
    pose proof (bound_method_pure _ _ _ _ _ Eb); subst h1.
    unfold bind at 1 in Hrun.
    destruct (rec recv h) as [[sub|e] h1] eqn:Er; [|discriminate].
    pose proof (Hrec _ _ _ Er); subst h1.
    destruct Hin as [Heq|Hin]; [|eauto].
    inversion Heq; subst. eauto.
  - destruct Hin as [Heq|Hin]; [|eauto].
    inversion Heq; subst. discriminate.
Qed.

Lemma export_path_app h : forall a ks b ks' c,
  export_path h a ks = Some b -> export_path h b ks' = Some c ->
  export_path h a (ks ++ ks') = Some c.
Proof.
  intros a ks. revert a. induction ks as [|k ks IH]; intros a b ks' c; simpl.
  - intros H. now inversion H.
  - destruct (Dict.get k (attrs_of h a)) as [[]|]; try discriminate.
    destruct (_ && _); [|discriminate]. apply IH.
Qed.

Lemma to_dict_cycle h : forall limit a ks d h',
  ks <> [] -> export_path h a ks = Some a ->
  to_dict limit a h <> (Ok d, h').
Proof.
  induction limit as [|limit IH]; intros a ks d h' Hne Hpath; [discriminate|].
  destruct ks as [|k rest]; [congruence|]. simpl in Hpath.
  destruct (Dict.get k (attrs_of h a)) as [[| | | | | | |c| |]|] eqn:Ek;
    try discriminate.
  destruct (negb (String.eqb k "__file__")
            && negb (Dict.has "to_dict" (attrs_of h c))) eqn:Ec;
    [|discriminate].
  apply andb_true_iff in Ec as [Hk Hto].
  apply negb_true_iff in Hk, Hto. apply String.eqb_neq in Hk.
  apply DictFacts.has_false in Hto.
  assert (Hstep : export_path h a [k] = Some c).
  { simpl. rewrite Ek. apply String.eqb_neq in Hk. rewrite Hk.
    apply DictFacts.has_false in Hto. now rewrite Hto. }
  pose proof (export_path_app _ _ _ _ _ _ Hpath Hstep) as Hloop.
  rewrite to_dict_unfold. intros Hrun.
  destruct (to_dict_items_calls (to_dict limit) h
              (fun l => to_dict_pure limit l h) _ _ _ _ k c Hrun)
    as (recv & sub & Hb & Hr); auto.
  { now apply dict_get_In. }
  rewrite bound_method_own in Hb by (auto; reflexivity).
  inversion Hb; subst recv.
  apply (IH c (rest ++ [k]) sub h); auto.
  now destruct rest.
Qed.

(** X14: a structure that contains itself cannot be exported.  When the
    entries [ks] (at least one) lead from a node back to the same node, each
    through a sub-node that [to_dict] visits and that has no entry named
    [to_dict], then [to_dict] on that node returns for no recursion limit.
    Binding a node under a key of its own with [add_item] makes such a
    structure. *)
Theorem X14_to_dict_cycle (self : loc) (h : heap) :
  (forall ks limit d h',
     ks <> [] -> export_path h self ks = Some self ->
     to_dict limit self h <> (Ok d, h'))
  /\ (forall key,
        self < length h -> split_dot key = [key] ->
        mem key data_descriptors = false ->
        key <> "__file__" -> key <> "to_dict" ->
        Dict.get "to_dict" (attrs_of h self) = None ->
        exists h1,
          add_item self key (VNode self) h = (Ok tt, h1)
          /\ forall limit d h', to_dict limit self h1 <> (Ok d, h')).
Proof.
  split.
  - intros ks limit d h' Hne Hpath. now apply to_dict_cycle with (ks := ks).
  - intros key Hlt Hsplit Hd Hfile Hto Hnone.
    set (h1 := <[self := Dict.set key (VNode self) (attrs_of h self)]> h).
    exists h1. split.
    + unfold add_item. rewrite Hsplit. now apply add_item_loop_single.
    + intros limit d h'. apply to_dict_cycle with (ks := [key]); [discriminate|].
      assert (Hg : Dict.has "to_dict" (Dict.set key (VNode self) (attrs_of h self))
                   = false).
      { apply DictFacts.has_false. rewrite DictFacts.get_set_other; auto. }
      cbn [export_path]. unfold h1. rewrite attrs_of_write_same by auto.
      rewrite DictFacts.get_set_same. cbv beta iota.
      rewrite attrs_of_write_same by auto. rewrite Hg.
      apply String.eqb_neq in Hfile. now rewrite Hfile.
Qed.

Lemma X14_to_dict_cycle_witness :
  let h := [[("a", VInt 1)]] in
  let h1 := [[("a", VInt 1); ("me", VNode 0)]] in
  add_item 0 "me" (VNode 0) h = (Ok tt, h1)
  /\ to_dict 5 0 h1 = (Raise RecursionError, h1)
  /\ (forall limit d h', to_dict limit 0 h1 <> (Ok d, h'))
  /\ forall limit d h',
       to_dict limit 0 [[("t", VNode 1)]; [("up", VNode 0)]] <> (Ok d, h').
Proof.
  intros h h1.
  destruct (X14_to_dict_cycle 0 h) as [_ Hadd].
  assert (Hlt : 0 < length h) by (simpl; lia).
  assert (Hf : ("me" : string) <> "__file__") by discriminate.
  assert (Ht : ("me" : string) <> "to_dict") by discriminate.
  destruct (Hadd "me" Hlt eq_refl eq_refl Hf Ht eq_refl) as (h' & Hrun & Hnever).
  assert (Hh : h' = h1) by (vm_compute in Hrun; now inversion Hrun).
  subst h'. split; [exact Hrun|]. split; [reflexivity|].
  split; [exact Hnever|].
  intros limit d h'.
  destruct (X14_to_dict_cycle 0 [[("t", VNode 1)]; [("up", VNode 0)]])
    as [Hcycle _].
  apply (Hcycle ["t"; "up"]); [discriminate|reflexivity].
Defined.

(** ** An entry named [to_dict] *)

Lemma method_to_dict_hidden limit self x h :
  Dict.get "to_dict" (attrs_of h self) = Some x -> not_callable x = true ->
  method_to_dict limit (VNode self) h = (Raise TypeError, h).
Proof.
  intros Hx Hc. unfold method_to_dict, bind.
  now rewrite (bound_method_hidden self "to_dict" x h eq_refl Hx Hc).
Qed.

Lemma entry_mirrors_value lo hi h k v : forall kvs got,
  Forall2 (entry_mirrors lo hi h) kvs got ->
  Dict.get k kvs = Some v -> not_a_mapping v = true ->
  Dict.get k got = Some v.
Proof.
  induction kvs as [|[k0 x] kvs IH]; intros got HF Hg Hv;
    inversion HF as [|? [k1 y] ? got' Hm HF']; subst; simpl in *;
    [discriminate|].
  destruct Hm as [Hk Hy]. simpl in Hk, Hy. subst k1.
  destruct (String.eqb k k0); [|eauto].
  inversion Hg; subst x. destruct v; try discriminate; now subst y.
Qed.

(** X15: an entry named [to_dict] hides the method that every export calls.
    On a node that binds [to_dict] to a value that cannot be called, the
    call [to_dict], [save_to_file] and [to_json] raise [TypeError], no file
    is opened, and a node that holds this node under a key other than
    [__file__] cannot be exported either.  A document with a top-level key
    [to_dict] bound to a scalar or an array makes such a node: [load] returns
    its root, and [save] on the root raises [TypeError] without touching the
    file. *)
Theorem X15_to_dict_hidden_method
    (toml_loads : string -> codec value)
    (toml_dumps json_dumps : dict -> codec string) (limit : nat) :
  (forall self h x,
     Dict.get "to_dict" (attrs_of h self) = Some x -> not_callable x = true ->
     method_to_dict limit (VNode self) h = (Raise TypeError, h)
     /\ to_json json_dumps limit self h = (Raise TypeError, h)
     /\ (forall filename fs,
           save_to_file toml_dumps limit self filename fs h
           = (Raise TypeError, h, fs))
     /\ (forall parent k n d h',
           In (k, VNode self) (attrs_of h parent) -> k <> "__file__" ->
           to_dict n parent h <> (Ok d, h')))
  /\ (forall p fs h M v,
        p <> "" -> toml_loads (default "" (fs !! p)) = Done (VDict M) ->
        nodup_keys M = true -> plain_items M = true ->
        depth (VDict M) <= limit ->
        Dict.get "to_dict" M = Some v -> not_a_mapping v = true ->
        Dict.get "save_to_file" M = None ->
        exists root h',
          load toml_loads limit p fs h = (Ok root, h', touch p fs)
          /\ forall fs2 n,
               save toml_dumps n root fs2 h' = (Raise TypeError, h', fs2)).
Proof.
  assert (Hnode : forall n self h x,
    Dict.get "to_dict" (attrs_of h self) = Some x -> not_callable x = true ->
    (forall filename fs,
       save_to_file toml_dumps n self filename fs h = (Raise TypeError, h, fs))).
  { intros n self h x Hx Hc filename fs. unfold save_to_file.
    now rewrite (method_to_dict_hidden n self x h Hx Hc). }
  split.
  - intros self h x Hx Hc.
    pose proof (method_to_dict_hidden limit self x h Hx Hc) as Hm.
    split; [exact Hm|]. split; [|split].
    + unfold to_json, bind. now rewrite Hm.
    + now apply Hnode with (x := x).
    + intros parent k n d h' Hin Hk.
      destruct n as [|n]; [discriminate|].
      rewrite to_dict_unfold. intros Hrun.
      destruct (to_dict_items_calls (to_dict n) h
                  (fun l => to_dict_pure n l h) _ _ _ _ k self Hrun Hin Hk)
        as (recv & sub & Hb & _).
      rewrite (bound_method_hidden self "to_dict" x h eq_refl Hx Hc) in Hb.
      discriminate.
  - intros p fs h M v Hp Hload Hnd Hpl Hd Hv Hnm Hs.
    destruct (TomlConfig_mirrors limit M h Hnd Hpl Hd)
      as (hfin & got & Hrun & Hlen & Hpre & Hattrs & Hkeys & Hm).
    set (h' := <[length h := Dict.set "__file__" (VStr p) got]> hfin).
    assert (Hroot : attrs_of h' (length h) = Dict.set "__file__" (VStr p) got).
    { unfold h'. now rewrite attrs_of_write_same. }
    exists (length h), h'. split.
    + rewrite (load_unfold _ _ _ _ _ Hp), Hload. simpl.
      rewrite (TomlConfig_with_filename _ _ _ _ Hp), Hrun, Hattrs.
      reflexivity.
    + intros fs2 n. unfold save.
      rewrite (getattr_node_bound (length h) "__file__" (VStr p) h' eq_refl)
        by (rewrite Hroot; apply DictFacts.get_set_same).
      simpl is_None. cbv iota.
      assert (Hsave : Dict.get "save_to_file" (attrs_of h' (length h)) = None).
      { rewrite Hroot, DictFacts.get_set_other by discriminate.
        apply DictFacts.get_None_keys. rewrite Hkeys.
        now apply DictFacts.get_None_keys. }
      rewrite bound_method_own by (auto; reflexivity).
      rewrite (getattr_node_bound (length h) "__file__" (VStr p) h' eq_refl)
        by (rewrite Hroot; apply DictFacts.get_set_same).
      apply Hnode with (x := v).
      * rewrite Hroot, DictFacts.get_set_other by discriminate.
        eapply entry_mirrors_value; eauto.
      * destruct v; try discriminate; reflexivity.
Qed.

Lemma X15_to_dict_hidden_method_witness :
  let loads := fun _ : string => Done (VDict [("to_dict", VInt 1)]) in
  let dumps := fun _ : dict => Done "text" in
  let fs : files := {[ "a.toml" := "to_dict = 1" ]} in
  let h := [[("to_dict", VInt 1)]; [("t", VNode 0)]] in
  method_to_dict 3 (VNode 0) h = (Raise TypeError, h)
  /\ save_to_file dumps 3 0 (VStr "b.toml") fs h = (Raise TypeError, h, fs)
  /\ to_dict 3 1 h = (Raise TypeError, h)
  /\ exists root h',
       load loads 3 "a.toml" fs [] = (Ok root, h', fs)
       /\ save dumps 3 root fs h' = (Raise TypeError, h', fs).
Proof.
  intros loads dumps fs h.
  destruct (X15_to_dict_hidden_method loads dumps dumps 3) as [Hnode Hload].
  destruct (Hnode 0 h (VInt 1) eq_refl eq_refl) as (Hm & _ & Hs & Hparent).
  split; [exact Hm|]. split; [apply Hs|]. split; [reflexivity|].
  assert (Hp : ("a.toml" : string) <> "") by discriminate.
  assert (Hread : loads (default "" (fs !! "a.toml"))
                  = Done (VDict [("to_dict", VInt 1)])) by reflexivity.
  assert (Hd : depth (VDict [("to_dict", VInt 1)]) <= 3) by (simpl; lia).
  destruct (Hload "a.toml" fs [] [("to_dict", VInt 1)] (VInt 1) Hp Hread
              eq_refl eq_refl Hd eq_refl eq_refl eq_refl)
    as (root & h' & Hrun & Hsave).
  exists root, h'. split; [|apply Hsave].
  rewrite Hrun. f_equal.
Defined.

(** ** The export after an entry is set to [None] or removed *)

Lemma getattr_same_entry c k h h' :
  Dict.get k (attrs_of h' c) = Dict.get k (attrs_of h c) ->
  getattr (VNode c) k h' = (fst (getattr (VNode c) k h), h').
Proof.
  intros Hsame. unfold getattr.
  destruct (String.eqb k "__dict__"); [reflexivity|].
  destruct (mem k data_descriptors); [reflexivity|].
  unfold bind, read_attrs. cbv beta iota. rewrite Hsame.
  destruct (Dict.get k (attrs_of h c)); [reflexivity|].
  destruct (mem k class_names); reflexivity.
Qed.

Lemma bound_method_same_entry c name h h' recv :
  Dict.get name (attrs_of h' c) = Dict.get name (attrs_of h c) ->
  bound_method (VNode c) name h = (Ok recv, h) ->
  bound_method (VNode c) name h' = (Ok recv, h').
Proof.
  intros Hsame. unfold bound_method, bind.
  rewrite (getattr_same_entry _ _ _ _ Hsame).
  destruct (getattr (VNode c) name h) as [[f|e] h0] eqn:Eg;
    pose proof (getattr_pure _ _ _ _ _ Eg); subst h0; simpl;
    [|discriminate].
  destruct f; try discriminate. destruct f; try discriminate.
  destruct (_ && _); [|discriminate].
  unfold ret. intros H. now inversion H.
Qed.

(** The loop of [to_dict] gives the same result in another store and with
    another body for the calls on sub-nodes, when the calls that returned
    give the same there. *)
Lemma to_dict_items_transfer (rec rec' : loc -> M dict) (h h' : heap) :
  (forall l r h1, rec l h = (r, h1) -> h1 = h) ->
  (forall recv sub, rec recv h = (Ok sub, h) -> rec' recv h' = (Ok sub, h')) ->
  (forall c, Dict.get "to_dict" (attrs_of h' c)
             = Dict.get "to_dict" (attrs_of h c)) ->
  forall kvs data d,
    to_dict_items rec kvs data h = (Ok d, h) ->
    to_dict_items rec' kvs data h' = (Ok d, h').
Proof.
  intros Hpure Hrec Hsame.
  induction kvs as [|[key x] rest IH]; intros data d; cbn [to_dict_items].
  - unfold ret. intros H. now inversion H.
  - destruct (String.eqb key "__file__" || is_None x); [apply IH|].
    destruct (isinstance_TomlConfig x) eqn:Et; [|apply IH].
    destruct x; try discriminate.
    unfold bind at 1.
    destruct (bound_method (VNode l) "to_dict" h) as [[recv|e] h1] eqn:Eb;
      [|discriminate].
    pose proof (bound_method_pure _ _ _ _ _ Eb); subst h1.
    unfold bind at 1.
    destruct (rec recv h) as [[sub|e] h1] eqn:Er; [|discriminate].
    pose proof (Hpure _ _ _ Er); subst h1.
    intros Hrun. unfold bind at 1.
    rewrite (bound_method_same_entry _ _ _ _ _ (Hsame l) Eb).
    unfold bind at 1. rewrite (Hrec _ _ Er). now apply IH.
Qed.

(** A larger recursion limit does not change an export that returned. *)
Lemma to_dict_mono_S : forall n c h d,
  to_dict n c h = (Ok d, h) -> to_dict (S n) c h = (Ok d, h).
Proof.
  induction n as [|n IH]; intros c h d; [discriminate|].
  rewrite !to_dict_unfold.
  apply to_dict_items_transfer; auto.
  intros l r h1. apply to_dict_pure.
Qed.

Lemma to_dict_mono n m c h d :
  n <= m -> to_dict n c h = (Ok d, h) -> to_dict m c h = (Ok d, h).
Proof.
  intros Hle Hrun. induction Hle as [|m Hle IH]; auto.
  now apply to_dict_mono_S.
Qed.

(** The least recursion limit with which an export returns. *)
Lemma to_dict_least : forall limit self h d,
  to_dict limit self h = (Ok d, h) ->
  exists m,
    m <= limit /\ to_dict m self h = (Ok d, h)
    /\ forall j d0 hx, j < m -> to_dict j self h <> (Ok d0, hx).
Proof.
  induction limit as [|n IH]; intros self h d Hrun; [discriminate|].
  destruct (to_dict n self h) as [[d0|e] hx] eqn:En.
  - pose proof (to_dict_pure _ _ _ _ _ En); subst hx.
    pose proof (to_dict_mono_S _ _ _ _ En) as HS.
    rewrite Hrun in HS. inversion HS; subst d0.
    destruct (IH _ _ _ En) as (m & Hle & Hm & Hleast).
    exists m. split; [lia|]. auto.
  - exists (S n). split; [lia|]. split; [exact Hrun|].
    intros j d0 hy Hj Hok.
    pose proof (to_dict_pure _ _ _ _ _ Hok); subst hy.
    assert (Hjn : j <= n) by lia.
    pose proof (to_dict_mono _ _ _ _ _ Hjn Hok) as Hn.
    rewrite En in Hn. discriminate.
Qed.

(** An export that never reaches the node [self] does not depend on the
    instance dictionary of [self]. *)
Lemma to_dict_frame self (dnew : dict) h :
  Dict.get "to_dict" dnew = Dict.get "to_dict" (attrs_of h self) ->
  forall n,
    (forall j d0 hx, j <= n -> to_dict j self h <> (Ok d0, hx)) ->
    forall c d,
      to_dict n c h = (Ok d, h) ->
      to_dict n c (<[self := dnew]> h) = (Ok d, <[self := dnew]> h).
Proof.
  intros Hto.
  assert (Hsame : forall c,
    Dict.get "to_dict" (attrs_of (<[self := dnew]> h) c)
    = Dict.get "to_dict" (attrs_of h c)).
  { intros c. rewrite attrs_of_write.
    destruct (Nat.eqb self c && Nat.ltb self (length h)) eqn:E; auto.
    apply andb_true_iff in E as [E _]. apply Nat.eqb_eq in E. now subst c. }
  induction n as [|n IH]; intros Hnever c d; [discriminate|].
  intros Hrun.
  assert (Hc : c <> self).
  { intros ->. now apply (Hnever (S n) d h). }
  rewrite to_dict_unfold in *.
  rewrite attrs_of_write_other by congruence.
  apply (to_dict_items_transfer (to_dict n) (to_dict n) h _
           (fun l => to_dict_pure n l h)); auto.
Qed.

Lemma export_of_transfer (rec rec' : loc -> M dict) (h h' : heap) :
  (forall recv sub, rec recv h = (Ok sub, h) -> rec' recv h' = (Ok sub, h')) ->
  (forall c, Dict.get "to_dict" (attrs_of h' c)
             = Dict.get "to_dict" (attrs_of h c)) ->
  forall src got, export_of rec h src got -> export_of rec' h' src got.
Proof.
  intros Hrec Hsame [k x] [k' y] [Hk Hv]. split; [exact Hk|].
  cbn [fst snd] in *. destruct x; auto.
  destruct Hv as (recv & sub & Hb & Hr & ->).
  exists recv, sub. split; [|split; auto].
  now apply (bound_method_same_entry _ _ h).
Qed.

Lemma del_absent_export (rec : loc -> M dict) h k : forall src out,
  Forall2 (export_of rec h) (List.filter exported src) out ->
  ~ In k (Dict.keys src) -> Dict.del k out = out.
Proof.
  induction src as [|[k0 x] src IH]; intros out HF Hk; cbn [List.filter] in HF.
  - now inversion HF.
  - simpl in Hk. destruct (exported (k0, x)); [|apply IH; tauto].
    inversion HF as [|? [k1 y] ? out' [Hg _] HF']; subst.
    cbn [fst] in Hg. subst k1. simpl.
    destruct (String.eqb k k0) eqn:E.
    + apply String.eqb_eq in E. subst. tauto.
    + f_equal. apply IH; tauto.
Qed.

Lemma exported_None k : exported (k, VNone) = false.
Proof. unfold exported. simpl. now rewrite orb_true_r. Qed.

Lemma export_after_None (rec : loc -> M dict) h k : forall src out,
  NoDup (Dict.keys src) ->
  Forall2 (export_of rec h) (List.filter exported src) out ->
  Forall2 (export_of rec h) (List.filter exported (Dict.set k VNone src))
    (Dict.del k out).
Proof.
  induction src as [|[k0 x] src IH]; intros out Hnd HF.
  - cbn [Dict.set List.filter]. rewrite exported_None.
    inversion HF; subst. constructor.
  - inversion Hnd as [|? ? Hnotin Hnd']; subst.
    rewrite list_elem_of_In in Hnotin.
    cbn [Dict.set]. destruct (String.eqb k k0) eqn:E.
    + apply String.eqb_eq in E. subst k0.
      cbn [List.filter] in *. rewrite exported_None.
      destruct (exported (k, x)).
      * inversion HF as [|? [k1 y] ? out' [Hg _] HF']; subst.
        cbn [fst] in Hg. subst k1. simpl. now rewrite String.eqb_refl.
      * now rewrite (del_absent_export _ _ _ _ _ HF Hnotin).
    + cbn [List.filter] in *. destruct (exported (k0, x)); [|now apply IH].
      inversion HF as [|? [k1 y] ? out' Hg HF']; subst.
      pose proof Hg as [Hk1 _]. cbn [fst] in Hk1. subst k1.
      simpl. rewrite E. constructor; [exact Hg|now apply IH].
Qed.

Lemma export_after_del (rec : loc -> M dict) h k : forall src out,
  NoDup (Dict.keys src) ->
  Forall2 (export_of rec h) (List.filter exported src) out ->
  Forall2 (export_of rec h) (List.filter exported (Dict.del k src))
    (Dict.del k out).
Proof.
  induction src as [|[k0 x] src IH]; intros out Hnd HF.
  - inversion HF; subst. constructor.
  - inversion Hnd as [|? ? Hnotin Hnd']; subst.
    rewrite list_elem_of_In in Hnotin.
    cbn [Dict.del]. destruct (String.eqb k k0) eqn:E.
    + apply String.eqb_eq in E. subst k0.
      cbn [List.filter] in HF. destruct (exported (k, x)).
      * inversion HF as [|? [k1 y] ? out' [Hg _] HF']; subst.
        cbn [fst] in Hg. subst k1. simpl. now rewrite String.eqb_refl.
      * now rewrite (del_absent_export _ _ _ _ _ HF Hnotin).
    + cbn [List.filter] in *. destruct (exported (k0, x)); [|now apply IH].
      inversion HF as [|? [k1 y] ? out' Hg HF']; subst.
      pose proof Hg as [Hk1 _]. cbn [fst] in Hk1. subst k1.
      simpl. rewrite E. constructor; [exact Hg|now apply IH].
Qed.

Lemma NoDup_keys_del k (d : dict) :
  NoDup (Dict.keys d) -> NoDup (Dict.keys (Dict.del k d)).
Proof.
  induction d as [|[k0 x] d IH]; simpl; auto.
  intros Hnd. inversion Hnd as [|? ? Hnotin Hnd']; subst.
  destruct (String.eqb k k0); auto. simpl. constructor; auto.
  rewrite list_elem_of_In in *. intros Hin. apply Hnotin.
  clear - Hin. induction d as [|[k1 y] d IH]; simpl in *; auto.
  destruct (String.eqb k k1); simpl in *; tauto.
Qed.

(** The export of a node after its instance dictionary is replaced by one
    that exports as [d']. *)
Lemma to_dict_after_write self (dnew : dict) h limit d d' :
  self < length h ->
  NoDup (Dict.keys (attrs_of h self)) -> NoDup (Dict.keys dnew) ->
  Dict.get "to_dict" dnew = Dict.get "to_dict" (attrs_of h self) ->
  (forall rec hx,
     Forall2 (export_of rec hx) (List.filter exported (attrs_of h self)) d ->
     Forall2 (export_of rec hx) (List.filter exported dnew) d') ->
  to_dict limit self h = (Ok d, h) ->
  to_dict limit self (<[self := dnew]> h) = (Ok d', <[self := dnew]> h).
Proof.
  intros Hlt Hnd Hnd' Hto Hfilter Hrun.
  destruct (to_dict_least _ _ _ _ Hrun) as (m & Hle & Hm & Hleast).
  apply (to_dict_mono m limit); auto.
  destruct m as [|m]; [discriminate|].
  set (h1 := <[self := dnew]> h).
  assert (Hsame : forall c,
    Dict.get "to_dict" (attrs_of h1 c) = Dict.get "to_dict" (attrs_of h c)).
  { intros c. unfold h1. rewrite attrs_of_write.
    destruct (Nat.eqb self c && Nat.ltb self (length h)) eqn:E; auto.
    apply andb_true_iff in E as [E _]. apply Nat.eqb_eq in E. now subst c. }
  assert (Hrec : forall recv sub,
    to_dict m recv h = (Ok sub, h) -> to_dict m recv h1 = (Ok sub, h1)).
  { intros recv sub Hr. apply to_dict_frame; auto.
    intros j d0 hx Hj. apply Hleast. lia. }
  rewrite to_dict_unfold in Hm.
  apply (to_dict_items_spec (to_dict m) h (fun l => to_dict_pure m l h)
           (attrs_of h self) [] d Hnd (fun _ _ => eq_refl)) in Hm.
  destruct Hm as (out & HF & Hout). simpl in Hout. subst out.
  rewrite to_dict_unfold.
  assert (Hattrs : attrs_of h1 self = dnew)
    by (unfold h1; now apply attrs_of_write_same).
  rewrite Hattrs.
  apply (to_dict_items_spec (to_dict m) h1 (fun l => to_dict_pure m l h1)
           dnew [] d' Hnd' (fun _ _ => eq_refl)).
  exists d'. split; [|reflexivity]. apply Hfilter.
  eapply Forall2_impl; [exact HF|].
  intros src got. now apply export_of_transfer.
Qed.

(** X16: what setting an entry to [None] and removing it do to the export.
    Let [to_dict] return [d] on a node whose instance dictionary binds no key
    twice and binds [k], a key other than [to_dict] and not served by a data
    descriptor.  After [update_item(k, None)] the key is still bound, [get]
    returns [None] for it, and [to_dict] returns [d] without the entry for
    [k], every other entry and the order unchanged.  After [remove_item(k)]
    (for [k] without a dot and no name of the class) [to_dict] returns the
    same mapping, but [get] raises [KeyError]. *)
Theorem X16_None_and_removal_in_the_export (limit : nat) (self : loc)
    (k : string) (h : heap) (d : dict) :
  NoDup (Dict.keys (attrs_of h self)) ->
  Dict.has k (attrs_of h self) = true ->
  mem k data_descriptors = false -> k <> "to_dict" ->
  to_dict limit self h = (Ok d, h) ->
  (exists h1,
     update_item self k VNone h = (Ok tt, h1)
     /\ get self k h1 = (Ok VNone, h1)
     /\ to_dict limit self h1 = (Ok (Dict.del k d), h1))
  /\ (split_dot k = [k] -> mem k class_names = false ->
      exists h2,
        remove_item self k h = (Ok tt, h2)
        /\ get self k h2 = (Raise (key_error k), h2)
        /\ to_dict limit self h2 = (Ok (Dict.del k d), h2)).
Proof.
  intros Hnd Hhas Hd Hk Hrun.
  assert (Hlt : self < length h).
  { destruct (Nat.lt_ge_cases self (length h)) as [|Hge]; auto.
    rewrite attrs_of_dangling in Hhas by auto. discriminate. }
  split.
  - set (h1 := <[self := Dict.set k VNone (attrs_of h self)]> h).
    exists h1. split; [now apply update_item_bound|]. split.
    + apply (get_bound self k VNone h1 Hd). unfold h1.
      rewrite attrs_of_write_same by auto. apply DictFacts.get_set_same.
    + apply to_dict_after_write with (d := d); auto.
      * now apply DictFacts.NoDup_keys_set.
      * apply DictFacts.get_set_other. congruence.
      * intros rec hx. now apply export_after_None.
  - intros Hsplit Hclass.
    set (h2 := <[self := Dict.del k (attrs_of h self)]> h).
    exists h2. split; [|split].
    + unfold remove_item. rewrite Hsplit. change [k] with ([] ++ [k]).
      now apply remove_item_loop_bound.
    + apply get_absent; auto. unfold h2.
      rewrite attrs_of_write_same by auto. now apply DictFacts.get_del_same.
    + apply to_dict_after_write with (d := d); auto.
      * now apply NoDup_keys_del.
      * apply DictFacts.get_del_other. congruence.
      * intros rec hx. now apply export_after_del.
Qed.

Lemma X16_None_and_removal_in_the_export_witness :
  let h := [[("a", VInt 1); ("t", VNode 1); ("b", VInt 2)]; [("k", VInt 3)]] in
  let hn := [[("a", VInt 1); ("t", VNone); ("b", VInt 2)]; [("k", VInt 3)]] in
  let hr := [[("a", VInt 1); ("b", VInt 2)]; [("k", VInt 3)]] in
  to_dict 2 0 h
  = (Ok [("a", VInt 1); ("t", VDict [("k", VInt 3)]); ("b", VInt 2)], h)
  /\ update_item 0 "t" VNone h = (Ok tt, hn)
  /\ get 0 "t" hn = (Ok VNone, hn)
  /\ to_dict 2 0 hn = (Ok [("a", VInt 1); ("b", VInt 2)], hn)
  /\ remove_item 0 "t" h = (Ok tt, hr)
  /\ get 0 "t" hr = (Raise (KeyError "Key 't' does not exist."), hr)
  /\ to_dict 2 0 hr = (Ok [("a", VInt 1); ("b", VInt 2)], hr).
Proof.
  intros h hn hr.
  assert (Hnd : NoDup (Dict.keys (attrs_of h 0))).
  { apply nodup_keys_NoDup. reflexivity. }
  assert (Hk : ("t" : string) <> "to_dict") by discriminate.
  assert (Hrun : to_dict 2 0 h
    = (Ok [("a", VInt 1); ("t", VDict [("k", VInt 3)]); ("b", VInt 2)], h))
    by reflexivity.
  destruct (X16_None_and_removal_in_the_export 2 0 "t" h _ Hnd eq_refl eq_refl
              Hk Hrun) as [(h1 & Hu & Hg & Ht) Hrem].
  destruct (Hrem eq_refl eq_refl) as (h2 & Hr & Hg2 & Ht2).
  assert (H1 : h1 = hn) by (vm_compute in Hu; now inversion Hu).
  assert (H2 : h2 = hr) by (vm_compute in Hr; now inversion Hr).
  subst h1 h2. split; [exact Hrun|]. repeat split; assumption.
Defined.

(** ** A failing [add_item] *)

(** X17: [add_item] is not atomic.  With a key of three segments whose first
    is not bound on the node (and is no name of the class), whose second is
    [__dict__] and whose last names no attribute of a [dict], [add_item]
    first binds a new empty table at the first segment, then reaches the
    table's instance dictionary, a plain [dict], and raises [AttributeError]
    when it assigns the last segment on it.  The new table stays bound after
    the failure; no other object that existed changes. *)
Theorem X17_add_item_fails_after_creating (self : loc) (key k1 k3 : string)
    (v : value) (h : heap) :
  split_dot key = [k1; "__dict__"; k3] ->
  self < length h ->
  Dict.get k1 (attrs_of h self) = None -> mem k1 class_names = false ->
  mem k3 (dict_names ++ object_names) = false ->
  let h' :=
    <[self := attrs_of h self ++ [(k1, VNode (length h))]]> (h ++ [[]]) in
  add_item self key v h = (Raise AttributeError, h')
  /\ get self k1 h' = (Ok (VAttrs (length h)), h')
  /\ attrs_of h' (length h) = []
  /\ forall l, l < length h -> l <> self -> h' !! l = h !! l.
Proof.
  intros Hsplit Hlt Hnone Hclass Hk3 h'.
  pose proof (descriptor_is_class_name _ Hclass) as Hd.
  assert (Hlt' : self < length (h ++ [[]])) by (rewrite length_app; lia).
  assert (Hself : attrs_of (h ++ [[]]) self = attrs_of h self).
  { unfold attrs_of. now rewrite lookup_app_l. }
  assert (Hset : Dict.set k1 (VNode (length h)) (attrs_of h self)
                 = attrs_of h self ++ [(k1, VNode (length h))])
    by now apply DictFacts.set_absent.
  assert (Hattrs : attrs_of h' self
                   = attrs_of h self ++ [(k1, VNode (length h))]).
  { unfold h'. now rewrite attrs_of_write_same. }
  assert (Hbound : Dict.get k1 (attrs_of h' self) = Some (VNode (length h))).
  { rewrite Hattrs, <- Hset. apply DictFacts.get_set_same. }
  assert (Hnew : attrs_of h' (length h) = []).
  { unfold h'. rewrite attrs_of_write_other by lia. apply attrs_of_new. }
  split; [|split; [|split]].
  - unfold add_item. rewrite Hsplit. cbn [add_item_loop].
    unfold bind at 1. rewrite hasattr_node_absent by auto. cbn [negb].
    unfold bind at 1. unfold bind at 1. rewrite TomlConfig_empty.
    rewrite setattr_node by auto. rewrite Hself, Hset. fold h'.
    unfold bind at 1. rewrite (getattr_node_bound _ _ _ _ Hd Hbound).
    unfold bind at 1. rewrite hasattr_node.
    change (mem "__dict__" data_descriptors) with true. cbn [orb negb].
    unfold bind at 1. unfold ret at 1.
    unfold bind at 1. unfold getattr at 1. cbn [String.eqb Ascii.eqb Bool.eqb].
    unfold ret at 1.
    unfold bind, hasattr, setattr, builtin_names, ret, raise.
    now rewrite Hk3.
  - apply (get_bound self k1 (VNode (length h)) h' Hd Hbound).
  - exact Hnew.
  - intros l Hl Hne. unfold h'. rewrite list_lookup_insert_ne by congruence.
    now apply lookup_app_l.
Qed.

Lemma X17_add_item_fails_after_creating_witness :
  let h := [[("a", VInt 1)]] in
  let h' := [[("a", VInt 1); ("x", VNode 1)]; []] in
  split_dot "x.__dict__.y" = ["x"; "__dict__"; "y"]
  /\ add_item 0 "x.__dict__.y" (VInt 2) h = (Raise AttributeError, h')
  /\ get 0 "x" h' = (Ok (VAttrs 1), h').
Proof.
  intros h h'.
  assert (Hlt : 0 < length h) by (simpl; lia).
  destruct (X17_add_item_fails_after_creating 0 "x.__dict__.y" "x" "y"
              (VInt 2) h eq_refl Hlt eq_refl eq_refl eq_refl)
    as (Hrun & Hget & _).
  split; [reflexivity|]. split; [exact Hrun|exact Hget].
Defined.
